(** * Turtle's Adventure: the entity simulation of [turtle_adventure.py]

    A shallow embedding of the classes of [turtle_adventure.py] and the
    properties of its per-tick update logic.

    Numbers.  The program computes on Python [int]s and [float]s that mix
    freely (coordinates start as integers and become floats after the first
    true division).  Both are read here as real numbers, so rounding and
    overflow are outside the model.  What is kept is the one arithmetic fault
    the code can raise: [a / b] raises [ZeroDivisionError] when [b] is zero.

    Objects.  Every class is a record, every method a function from the
    objects it reads to the objects it writes.  A method of an enemy runs on a
    frame holding the enemy itself, the game it belongs to and the clock, and
    ends either normally or by raising, the frame keeping in both cases the
    writes made so far. *)

From Stdlib Require Import Reals Lra ZArith List Bool String.
Import ListNotations.

Local Open Scope R_scope.

(* ===================================================================== *)
(** ** Numbers *)
(* ===================================================================== *)

(** Python's [a <= b], [a < b] and [a > b] as booleans. *)
Definition Rleb (a b : R) : bool := if Rle_dec a b then true else false.
Definition Rltb (a b : R) : bool := if Rlt_dec a b then true else false.

Definition Rgtb (a b : R) : bool := Rltb b a.

Infix "<=?" := Rleb (at level 70, no associativity) : R_scope.
Infix "<?" := Rltb (at level 70, no associativity) : R_scope.
Infix ">?" := Rgtb (at level 70, no associativity) : R_scope.

(** Python's chained comparisons [a <= b <= c] and [a < b < c]. *)
Notation "a <=? b <=? c" := (andb (Rleb a b) (Rleb b c))
  (at level 70, b at next level, no associativity) : R_scope.
Notation "a <? b <? c" := (andb (Rltb a b) (Rltb b c))
  (at level 70, b at next level, no associativity) : R_scope.

(** The exceptions the modelled code can raise. *)
Inductive exn : Type :=
| ZeroDivisionError.

(** Python's true division [a / b]. *)
Definition truediv (a b : R) : exn + R :=
  if Req_dec_T b 0 then inl ZeroDivisionError else inr (a / b).

(* ===================================================================== *)
(** ** Python's [turtle.RawTurtle] *)
(* ===================================================================== *)

(** The part of a turtle the game uses: where it is and which way it faces.
    The turtle library keeps the facing as the unit vector [orient]; an
    angle is kept here as the unit vector it denotes, so that
    [setheading (towards x y)] needs no trigonometry. *)
Record RawTurtle : Type := mkRawTurtle {
  position : R * R;
  orient : R * R
}.

Definition xcor (t : RawTurtle) : R := fst (position t).
Definition ycor (t : RawTurtle) : R := snd (position t).

Definition setx (t : RawTurtle) (v : R) : RawTurtle :=
  mkRawTurtle (v, ycor t) (orient t).
Definition sety (t : RawTurtle) (v : R) : RawTurtle :=
  mkRawTurtle (xcor t, v) (orient t).

(** [turtle.distance(x, y)]: the Euclidean distance to [(x, y)]. *)
Definition distance (t : RawTurtle) (x y : R) : R :=
  sqrt ((x - xcor t) ^ 2 + (y - ycor t) ^ 2).

(** [turtle.towards(x, y)]: the direction of [(x, y)] seen from the turtle.
    The library computes [atan2 (y - ycor) (x - xcor)], which is the angle 0
    (facing along the first axis) when the point is the turtle's own.  It
    rounds the angle to ten decimals and works in floats; the direction here
    is exact, so where a step lands is exact here and approximate there. *)
Definition towards (t : RawTurtle) (x y : R) : R * R :=
  let d := distance t x y in
  if Req_dec_T d 0 then (1, 0)
  else ((x - xcor t) / d, (y - ycor t) / d).

(** [turtle.setheading(angle)]. *)
Definition setheading (t : RawTurtle) (to_angle : R * R) : RawTurtle :=
  mkRawTurtle (position t) to_angle.

(** [turtle.forward(d)]: [d] units along the current heading. *)
Definition forward (t : RawTurtle) (d : R) : RawTurtle :=
  mkRawTurtle (xcor t + fst (orient t) * d, ycor t + snd (orient t) * d)
              (orient t).

(* ===================================================================== *)
(** ** Waypoint *)
(* ===================================================================== *)

Record Waypoint : Type := mkWaypoint {
  Waypoint_x : R;
  Waypoint_y : R;
  Waypoint_is_active : bool
}.

(** [Waypoint.__init__]; the coordinates are those [GameElement] gives a new
    element. *)
Definition Waypoint_init (x0 y0 : R) : Waypoint := mkWaypoint x0 y0 false.

Definition Waypoint_activate (self : Waypoint) (x y : R) : Waypoint :=
  mkWaypoint x y true.

Definition Waypoint_deactivate (self : Waypoint) : Waypoint :=
  mkWaypoint (Waypoint_x self) (Waypoint_y self) false.

(* ===================================================================== *)
(** ** Home *)
(* ===================================================================== *)

Record Home : Type := mkHome {
  Home_x : R;
  Home_y : R;
  Home_size : R
}.

Definition Home_init (pos : R * R) (size : R) : Home :=
  let '(x, y) := pos in mkHome x y size.

Definition Home_set_x (self : Home) (v : R) : Home :=
  mkHome v (Home_y self) (Home_size self).
Definition Home_set_y (self : Home) (v : R) : Home :=
  mkHome (Home_x self) v (Home_size self).

(** [Home.contains]. *)
Definition Home_contains (self : Home) (x y : R) : bool :=
  let '(x1, x2) := (Home_x self - Home_size self / 2,
                    Home_x self + Home_size self / 2) in
  let '(y1, y2) := (Home_y self - Home_size self / 2,
                    Home_y self + Home_size self / 2) in
  (x1 <=? x <=? x2) && (y1 <=? y <=? y2).

(* ===================================================================== *)
(** ** Player (state and position accessors) *)
(* ===================================================================== *)

Record Player : Type := mkPlayer {
  Player_speed : R;
  Player_turtle : RawTurtle
}.

(** The overridden [x] and [y] properties read and write the turtle. *)
Definition Player_x (self : Player) : R := xcor (Player_turtle self).
Definition Player_y (self : Player) : R := ycor (Player_turtle self).

Definition Player_set_x (self : Player) (val : R) : Player :=
  mkPlayer (Player_speed self) (setx (Player_turtle self) val).
Definition Player_set_y (self : Player) (val : R) : Player :=
  mkPlayer (Player_speed self) (sety (Player_turtle self) val).

Definition Player_set_turtle (self : Player) (t : RawTurtle) : Player :=
  mkPlayer (Player_speed self) t.

(* ===================================================================== *)
(** ** The canvas and the game *)
(* ===================================================================== *)

(** A text item of the tkinter canvas. *)
Record CanvasText : Type := mkCanvasText {
  text_x : R;
  text_y : R;
  text : string;
  font : string * Z * string;
  fill : string
}.

(** The canvas: its size as [winfo_width()] and [winfo_height()] report it,
    and the text items created on it, oldest first. *)
Record Canvas : Type := mkCanvas {
  winfo_width : R;
  winfo_height : R;
  texts : list CanvasText
}.

Definition create_text (c : Canvas) (x y : R) (txt : string)
    (fnt : string * Z * string) (color : string) : Canvas :=
  mkCanvas (winfo_width c) (winfo_height c)
           (texts c ++ [mkCanvasText x y txt fnt color]).

(** [TurtleAdventureGame], with the two things it inherits from gamelib's
    [Game] that the code below touches: the canvas and whether the tick loop
    is running.  The element list and the enemy generator only decide which
    updates run, not what an update does, and are left out. *)
Record TurtleAdventureGame : Type := mkGame {
  level : Z;
  screen_width : Z;
  screen_height : Z;
  waypoint : Waypoint;
  player : Player;
  home : Home;
  canvas : Canvas;
  is_started : bool
}.

Definition set_waypoint (g : TurtleAdventureGame) (w : Waypoint) :=
  mkGame (level g) (screen_width g) (screen_height g) w (player g) (home g)
         (canvas g) (is_started g).
Definition set_player (g : TurtleAdventureGame) (p : Player) :=
  mkGame (level g) (screen_width g) (screen_height g) (waypoint g) p (home g)
         (canvas g) (is_started g).
Definition set_home (g : TurtleAdventureGame) (h : Home) :=
  mkGame (level g) (screen_width g) (screen_height g) (waypoint g) (player g) h
         (canvas g) (is_started g).
Definition set_canvas (g : TurtleAdventureGame) (c : Canvas) :=
  mkGame (level g) (screen_width g) (screen_height g) (waypoint g) (player g)
         (home g) c (is_started g).

(** Modelled from the spec: gamelib's [Game.stop], which is not among the
    sources.  The spec has the game-over transitions halt ticking: the
    controller ceases scheduling future ticks. *)
Definition stop (g : TurtleAdventureGame) : TurtleAdventureGame :=
  mkGame (level g) (screen_width g) (screen_height g) (waypoint g) (player g)
         (home g) (canvas g) false.

Definition game_over_win (self : TurtleAdventureGame) : TurtleAdventureGame :=
  let self := stop self in
  let font := ("Arial"%string, 36%Z, "bold"%string) in
  set_canvas self
    (create_text (canvas self)
                 (IZR (screen_width self) / 2)
                 (IZR (screen_height self) / 2)
                 "You Win" font "green").

Definition game_over_lose (self : TurtleAdventureGame) : TurtleAdventureGame :=
  let self := stop self in
  let font := ("Arial"%string, 36%Z, "bold"%string) in
  set_canvas self
    (create_text (canvas self)
                 (IZR (screen_width self) / 2)
                 (IZR (screen_height self) / 2)
                 "You Lose" font "red").

(* ===================================================================== *)
(** ** Player.update *)
(* ===================================================================== *)

Definition Player_update (game : TurtleAdventureGame) : TurtleAdventureGame :=
  let self := player game in
  (* check if player has arrived home *)
  let game :=
    if Home_contains (home game) (Player_x self) (Player_y self)
    then game_over_win game else game in
  let turtle := Player_turtle self in
  let waypoint := waypoint game in
  if Waypoint_is_active waypoint then
    let turtle :=
      setheading turtle
        (towards turtle (Waypoint_x waypoint) (Waypoint_y waypoint)) in
    let turtle := forward turtle (Player_speed self) in
    let game := set_player game (Player_set_turtle self turtle) in
    if distance turtle (Waypoint_x waypoint) (Waypoint_y waypoint)
       <? Player_speed self
    then set_waypoint game (Waypoint_deactivate waypoint)
    else game
  else game.

(* ===================================================================== *)
(** ** Methods of an enemy: state and exceptions *)
(* ===================================================================== *)

(** What a method of an enemy runs on: the enemy ([self]), the game it
    reads and writes through [self.game], and the clock.  The clock is the
    sequence of values the coming calls of [time.time_ns()] return. *)
Record Frame (E : Type) : Type := mkFrame {
  self : E;
  game : TurtleAdventureGame;
  clock : nat -> Z
}.
Arguments mkFrame {E} _ _ _.
Arguments self {E} _.
Arguments game {E} _.
Arguments clock {E} _.

(** How a method ends: it returns a value, or an exception leaves it.  The
    frame is the one reached at that point. *)
Inductive result (E A : Type) : Type :=
| Return (a : A) (f : Frame E)
| Raise (e : exn) (f : Frame E).
Arguments Return {E A} _ _.
Arguments Raise {E A} _ _.

Definition method (E A : Type) : Type := Frame E -> result E A.

Definition ret {E A : Type} (a : A) : method E A := fun f => Return a f.

Definition bind {E A B : Type} (m : method E A) (k : A -> method E B)
  : method E B :=
  fun f => match m f with
           | Return a f' => k a f'
           | Raise e f' => Raise e f'
           end.

Declare Scope method_scope.
Delimit Scope method_scope with method.
Notation "x <- m ;; k" := (bind m (fun x => k))
  (at level 61, m at next level, right associativity) : method_scope.
Notation "m ;; k" := (bind m (fun _ => k))
  (at level 61, right associativity) : method_scope.
Local Open Scope method_scope.

Definition get_self {E : Type} : method E E := fun f => Return (self f) f.
Definition get_game {E : Type} : method E TurtleAdventureGame :=
  fun f => Return (game f) f.
Definition modify_self {E : Type} (u : E -> E) : method E unit :=
  fun f => Return tt (mkFrame (u (self f)) (game f) (clock f)).
Definition modify_game {E : Type}
    (u : TurtleAdventureGame -> TurtleAdventureGame) : method E unit :=
  fun f => Return tt (mkFrame (self f) (u (game f)) (clock f)).

(** [time.time_ns()]: the next reading of the clock. *)
Definition time_ns {E : Type} : method E Z :=
  fun f => Return (clock f 0%nat)
                  (mkFrame (self f) (game f) (fun n => clock f (S n))).

(** [a / b] inside a method. *)
Definition div {E : Type} (a b : R) : method E R :=
  fun f => match truediv a b with
           | inl e => Raise e f
           | inr q => Return q f
           end.

(** [if c: body]. *)
Definition when {E : Type} (c : bool) (body : method E unit) : method E unit :=
  if c then body else ret tt.

(** The frame a method leaves, however it ends. *)
Definition frame_of {E A : Type} (r : result E A) : Frame E :=
  match r with Return _ f => f | Raise _ f => f end.

(** Whether it ended normally. *)
Definition returned {E A : Type} (r : result E A) : bool :=
  match r with Return _ _ => true | Raise _ _ => false end.

(* ===================================================================== *)
(** ** Enemy *)
(* ===================================================================== *)

(** The state every enemy has: its position (from [GameElement]) and what
    [Enemy.__init__] stores. *)
Record Enemy : Type := mkEnemy {
  Enemy_x : R;
  Enemy_y : R;
  Enemy_size : R;
  Enemy_color : string
}.

(** [Enemy.__init__]; [(x0, y0)] is the position gamelib's
    [GameElement.__init__] (not among the sources) gives a new element. *)
Definition Enemy_init (x0 y0 : R) (size : R) (color : string) : Enemy :=
  mkEnemy x0 y0 size color.

(** A subclass of [Enemy] holds an [Enemy] and can replace it. *)
Class EnemyClass (E : Type) : Type := {
  super : E -> Enemy;
  with_super : E -> Enemy -> E
}.

Section EnemyMethods.
Context {E : Type} `{EnemyClass E}.

Definition x (self : E) : R := Enemy_x (super self).
Definition y (self : E) : R := Enemy_y (super self).
Definition size (self : E) : R := Enemy_size (super self).
Definition color (self : E) : string := Enemy_color (super self).

Definition set_x (self : E) (v : R) : E :=
  with_super self (mkEnemy v (y self) (size self) (color self)).
Definition set_y (self : E) (v : R) : E :=
  with_super self (mkEnemy (x self) v (size self) (color self)).

(** [Enemy.hits_player]. *)
Definition hits_player (self : E) (game : TurtleAdventureGame) : bool :=
  (x self - size self / 2 <? Player_x (player game) <? x self + size self / 2)
  &&
  (y self - size self / 2 <? Player_y (player game) <? y self + size self / 2).

(** The end of every [update]:
    [if self.hits_player(): self.game.game_over_lose()]. *)
Definition check_hit : method E unit :=
  self <- get_self ;;
  game <- get_game ;;
  when (hits_player self game) (modify_game game_over_lose).
End EnemyMethods.

(* ===================================================================== *)
(** ** RandomWalkEnemy *)
(* ===================================================================== *)

Record RandomWalkEnemy : Type := mkRandomWalkEnemy {
  RandomWalk_super : Enemy;
  RandomWalk_speed_x : R;
  RandomWalk_speed_y : R
}.

#[export] Instance RandomWalkEnemy_EnemyClass : EnemyClass RandomWalkEnemy := {
  super := RandomWalk_super;
  with_super self e :=
    mkRandomWalkEnemy e (RandomWalk_speed_x self) (RandomWalk_speed_y self)
}.

Definition RandomWalkEnemy_init (x0 y0 : R) (size : R) (color : string)
  : RandomWalkEnemy :=
  mkRandomWalkEnemy (Enemy_init x0 y0 size color) 3 3.

Definition RandomWalk_set_speed_x (self : RandomWalkEnemy) (v : R) :=
  mkRandomWalkEnemy (RandomWalk_super self) v (RandomWalk_speed_y self).
Definition RandomWalk_set_speed_y (self : RandomWalkEnemy) (v : R) :=
  mkRandomWalkEnemy (RandomWalk_super self) (RandomWalk_speed_x self) v.

Definition RandomWalkEnemy_update : method RandomWalkEnemy unit :=
  modify_self (fun self => set_x self (x self + RandomWalk_speed_x self)) ;;
  modify_self (fun self => set_y self (y self + RandomWalk_speed_y self)) ;;
  self <- get_self ;;
  game <- get_game ;;
  when ((x self <? 0) || (x self >? winfo_width (canvas game)))
       (modify_self (fun self =>
          RandomWalk_set_speed_x self (- RandomWalk_speed_x self))) ;;
  self <- get_self ;;
  when ((y self <? 0) || (y self >? winfo_height (canvas game)))
       (modify_self (fun self =>
          RandomWalk_set_speed_y self (- RandomWalk_speed_y self))) ;;
  check_hit.

(* ===================================================================== *)
(** ** ChasingEnemy *)
(* ===================================================================== *)

Record ChasingEnemy : Type := mkChasingEnemy {
  Chasing_super : Enemy;
  Chasing_speed : R
}.

#[export] Instance ChasingEnemy_EnemyClass : EnemyClass ChasingEnemy := {
  super := Chasing_super;
  with_super self e := mkChasingEnemy e (Chasing_speed self)
}.

Definition ChasingEnemy_init (x0 y0 : R) (size : R) (color : string)
  : ChasingEnemy :=
  mkChasingEnemy (Enemy_init x0 y0 size color) 2.

Definition ChasingEnemy_update : method ChasingEnemy unit :=
  self <- get_self ;;
  game <- get_game ;;
  let dis_x := Player_x (player game) - x self in
  let dis_y := Player_y (player game) - y self in
  let distance := sqrt (dis_x ^ 2 + dis_y ^ 2) in
  q <- div dis_x distance ;;
  modify_self (fun self => set_x self (x self + q * Chasing_speed self)) ;;
  q <- div dis_y distance ;;
  modify_self (fun self => set_y self (y self + q * Chasing_speed self)) ;;
  check_hit.

(* ===================================================================== *)
(** ** FencingEnemy *)
(* ===================================================================== *)

(** The bound method kept in [self.__state]. *)
Inductive FencingState : Type :=
| MOVE_DOWN
| MOVE_RIGHT
| MOVE_UP
| MOVE_LEFT.

Record FencingEnemy : Type := mkFencingEnemy {
  Fencing_super : Enemy;
  Fencing_speed : R;
  Fencing_x_left : R;
  Fencing_x_right : R;
  Fencing_y_up : R;
  Fencing_y_down : R;
  Fencing_state : FencingState
}.

#[export] Instance FencingEnemy_EnemyClass : EnemyClass FencingEnemy := {
  super := Fencing_super;
  with_super self e :=
    mkFencingEnemy e (Fencing_speed self) (Fencing_x_left self)
      (Fencing_x_right self) (Fencing_y_up self) (Fencing_y_down self)
      (Fencing_state self)
}.

Definition FencingEnemy_init (x0 y0 : R) (game : TurtleAdventureGame)
    (size : R) (color : string) (x_left y_up : R) : FencingEnemy :=
  mkFencingEnemy (Enemy_init x0 y0 size color)
    2
    x_left
    (2 * Home_x (home game) - x_left)
    y_up
    (2 * Home_y (home game) - y_up)
    MOVE_DOWN.

Definition Fencing_set_state (self : FencingEnemy) (s : FencingState) :=
  mkFencingEnemy (Fencing_super self) (Fencing_speed self)
    (Fencing_x_left self) (Fencing_x_right self) (Fencing_y_up self)
    (Fencing_y_down self) s.

Definition FencingEnemy_move_left : method FencingEnemy unit :=
  modify_self (fun self => set_x self (x self - Fencing_speed self)) ;;
  self <- get_self ;;
  when (x self <? Fencing_x_left self)
       (modify_self (fun self => Fencing_set_state self MOVE_DOWN)).

Definition FencingEnemy_move_down : method FencingEnemy unit :=
  modify_self (fun self => set_y self (y self + Fencing_speed self)) ;;
  self <- get_self ;;
  when (y self >? Fencing_y_down self)
       (modify_self (fun self => Fencing_set_state self MOVE_RIGHT)).

Definition FencingEnemy_move_right : method FencingEnemy unit :=
  modify_self (fun self => set_x self (x self + Fencing_speed self)) ;;
  self <- get_self ;;
  when (x self >? Fencing_x_right self)
       (modify_self (fun self => Fencing_set_state self MOVE_UP)).

Definition FencingEnemy_move_up : method FencingEnemy unit :=
  modify_self (fun self => set_y self (y self - Fencing_speed self)) ;;
  self <- get_self ;;
  when (y self <? Fencing_y_up self)
       (modify_self (fun self => Fencing_set_state self MOVE_LEFT)).

(** [self.__state()]: the call of the stored bound method. *)
Definition FencingEnemy_call_state : method FencingEnemy unit :=
  self <- get_self ;;
  match Fencing_state self with
  | MOVE_DOWN => FencingEnemy_move_down
  | MOVE_RIGHT => FencingEnemy_move_right
  | MOVE_UP => FencingEnemy_move_up
  | MOVE_LEFT => FencingEnemy_move_left
  end.

Definition FencingEnemy_update : method FencingEnemy unit :=
  FencingEnemy_call_state ;;
  check_hit.

(* ===================================================================== *)
(** ** ThiefEnemy *)
(* ===================================================================== *)

Inductive ThiefState : Type :=
| MOVE_RANDOM
| FIND_HOME
| MOVE_HOME
| PLACE_HOME.

Record ThiefEnemy : Type := mkThiefEnemy {
  Thief_super : Enemy;
  Thief_home_x : R;
  Thief_home_y : R;
  Thief_speed : R;
  Thief_speed_x : R;
  Thief_speed_y : R;
  Thief_start_time : Z;
  Thief_state : ThiefState
}.

#[export] Instance ThiefEnemy_EnemyClass : EnemyClass ThiefEnemy := {
  super := Thief_super;
  with_super self e :=
    mkThiefEnemy e (Thief_home_x self) (Thief_home_y self) (Thief_speed self)
      (Thief_speed_x self) (Thief_speed_y self) (Thief_start_time self)
      (Thief_state self)
}.

(** [ThiefEnemy.__init__]; [now] is what [time.time_ns()] returns there. *)
Definition ThiefEnemy_init (x0 y0 : R) (game : TurtleAdventureGame)
    (size : R) (color : string) (now : Z) : ThiefEnemy :=
  mkThiefEnemy (Enemy_init x0 y0 size color)
    (Home_x (home game))
    (Home_y (home game))
    2
    2
    2
    now
    MOVE_RANDOM.

Definition Thief_set_speed (self : ThiefEnemy) (v : R) :=
  mkThiefEnemy (Thief_super self) (Thief_home_x self) (Thief_home_y self) v
    (Thief_speed_x self) (Thief_speed_y self) (Thief_start_time self)
    (Thief_state self).
Definition Thief_set_speed_x (self : ThiefEnemy) (v : R) :=
  mkThiefEnemy (Thief_super self) (Thief_home_x self) (Thief_home_y self)
    (Thief_speed self) v (Thief_speed_y self) (Thief_start_time self)
    (Thief_state self).
Definition Thief_set_speed_y (self : ThiefEnemy) (v : R) :=
  mkThiefEnemy (Thief_super self) (Thief_home_x self) (Thief_home_y self)
    (Thief_speed self) (Thief_speed_x self) v (Thief_start_time self)
    (Thief_state self).
Definition Thief_set_start_time (self : ThiefEnemy) (v : Z) :=
  mkThiefEnemy (Thief_super self) (Thief_home_x self) (Thief_home_y self)
    (Thief_speed self) (Thief_speed_x self) (Thief_speed_y self) v
    (Thief_state self).
Definition Thief_set_state (self : ThiefEnemy) (s : ThiefState) :=
  mkThiefEnemy (Thief_super self) (Thief_home_x self) (Thief_home_y self)
    (Thief_speed self) (Thief_speed_x self) (Thief_speed_y self)
    (Thief_start_time self) s.

(** [self.start_time = time.time_ns()]. *)
Definition Thief_restart_timer : method ThiefEnemy unit :=
  now <- time_ns ;;
  modify_self (fun self => Thief_set_start_time self now).

(** [(time.time_ns() - self.start_time)/1e9]. *)
Definition Thief_elapsed : method ThiefEnemy R :=
  now <- time_ns ;;
  self <- get_self ;;
  ret (IZR (now - Thief_start_time self) / 1e9).

Definition ThiefEnemy_find_home : method ThiefEnemy unit :=
  self <- get_self ;;
  game <- get_game ;;
  let dis_x := Home_x (home game) - x self in
  let dis_y := Home_y (home game) - y self in
  let distance := sqrt (dis_x ^ 2 + dis_y ^ 2) in
  q <- div dis_x distance ;;
  modify_self (fun self => set_x self (x self + q * Thief_speed self)) ;;
  q <- div dis_y distance ;;
  modify_self (fun self => set_y self (y self + q * Thief_speed self)) ;;
  self <- get_self ;;
  when ((Home_x (home game) - 3 <=? x self <=? Home_x (home game) + 3)
        && (Home_y (home game) - 3 <=? y self <=? Home_y (home game) + 3))
       (modify_self (fun self => Thief_set_speed self 4) ;;
        modify_self (fun self => Thief_set_speed self 4) ;;
        Thief_restart_timer ;;
        modify_self (fun self => Thief_set_state self MOVE_HOME)).

Definition ThiefEnemy_move_home : method ThiefEnemy unit :=
  self <- get_self ;;
  modify_game (fun game => set_home game (Home_set_x (home game) (x self))) ;;
  modify_game (fun game => set_home game (Home_set_y (home game) (y self))) ;;
  modify_self (fun self => set_x self (x self + Thief_speed_x self)) ;;
  modify_self (fun self => set_y self (y self + Thief_speed_y self)) ;;
  self <- get_self ;;
  game <- get_game ;;
  when ((x self <? 0) || (x self >? winfo_width (canvas game)))
       (modify_self (fun self =>
          Thief_set_speed_x self (- Thief_speed_x self))) ;;
  self <- get_self ;;
  when ((y self <? 0) || (y self >? winfo_height (canvas game)))
       (modify_self (fun self =>
          Thief_set_speed_y self (- Thief_speed_y self))) ;;
  elapsed <- Thief_elapsed ;;
  when (elapsed >? 3)
       (modify_self (fun self => Thief_set_speed_x self 2) ;;
        modify_self (fun self => Thief_set_speed_y self 2) ;;
        Thief_restart_timer ;;
        modify_self (fun self => Thief_set_state self PLACE_HOME)).

Definition ThiefEnemy_place_home : method ThiefEnemy unit :=
  self <- get_self ;;
  modify_game (fun game => set_home game (Home_set_x (home game) (x self))) ;;
  modify_game (fun game => set_home game (Home_set_y (home game) (y self))) ;;
  let dis_x := Thief_home_x self - x self in
  let dis_y := Thief_home_y self - y self in
  let distance := sqrt (dis_x ^ 2 + dis_y ^ 2) in
  q <- div dis_x distance ;;
  modify_self (fun self => set_x self (x self + q * Thief_speed self)) ;;
  q <- div dis_y distance ;;
  modify_self (fun self => set_y self (y self + q * Thief_speed self)) ;;
  self <- get_self ;;
  when ((Thief_home_x self - 3 <=? x self <=? Thief_home_x self + 3)
        && (Thief_home_y self - 3 <=? y self <=? Thief_home_y self + 3))
       (modify_self (fun self => Thief_set_speed self 2) ;;
        modify_self (fun self => Thief_set_speed self 2) ;;
        Thief_restart_timer ;;
        modify_self (fun self => Thief_set_state self MOVE_RANDOM)).

Definition ThiefEnemy_move_random : method ThiefEnemy unit :=
  modify_self (fun self => set_x self (x self + Thief_speed_x self)) ;;
  modify_self (fun self => set_y self (y self + Thief_speed_y self)) ;;
  self <- get_self ;;
  game <- get_game ;;
  when ((x self <? 0) || (x self >? winfo_width (canvas game)))
       (modify_self (fun self =>
          Thief_set_speed_x self (- Thief_speed_x self))) ;;
  self <- get_self ;;
  when ((y self <? 0) || (y self >? winfo_height (canvas game)))
       (modify_self (fun self =>
          Thief_set_speed_y self (- Thief_speed_y self))) ;;
  elapsed <- Thief_elapsed ;;
  when (elapsed >? 6.5)
       (modify_self (fun self => Thief_set_speed_x self 4) ;;
        modify_self (fun self => Thief_set_speed_y self 4) ;;
        Thief_restart_timer ;;
        modify_self (fun self => Thief_set_state self FIND_HOME)).

(** [self.__state()]. *)
Definition ThiefEnemy_call_state : method ThiefEnemy unit :=
  self <- get_self ;;
  match Thief_state self with
  | MOVE_RANDOM => ThiefEnemy_move_random
  | FIND_HOME => ThiefEnemy_find_home
  | MOVE_HOME => ThiefEnemy_move_home
  | PLACE_HOME => ThiefEnemy_place_home
  end.

Definition ThiefEnemy_update : method ThiefEnemy unit :=
  ThiefEnemy_call_state ;;
  check_hit.

(* ===================================================================== *)
(** ** Vocabulary of the properties *)
(* ===================================================================== *)

(** The text items the two terminal transitions draw. *)
Definition win_banner (g : TurtleAdventureGame) : CanvasText :=
  mkCanvasText (IZR (screen_width g) / 2) (IZR (screen_height g) / 2)
               "You Win" ("Arial"%string, 36%Z, "bold"%string) "green".
Definition lose_banner (g : TurtleAdventureGame) : CanvasText :=
  mkCanvasText (IZR (screen_width g) / 2) (IZR (screen_height g) / 2)
               "You Lose" ("Arial"%string, 36%Z, "bold"%string) "red".

(** The two terminal transitions under one name. *)
Inductive GameOver : Type :=
| Win
| Lose.

Definition game_over (k : GameOver)
  : TurtleAdventureGame -> TurtleAdventureGame :=
  match k with Win => game_over_win | Lose => game_over_lose end.

Definition banner (k : GameOver) (g : TurtleAdventureGame) : CanvasText :=
  match k with Win => win_banner g | Lose => lose_banner g end.

(** *** Scenarios

    Games on an 800 x 500 screen, where [init_game] puts a home of side 20 at
    (700, 250) and gives the player the speed 5. *)

(** The player stands on the centre of its home, the waypoint is active 8
    units further along the first axis. *)
Definition arrived_game : TurtleAdventureGame :=
  mkGame 1 800 500
    (mkWaypoint 708 250 true)
    (mkPlayer 5 (mkRawTurtle (700, 250) (1, 0)))
    (mkHome 700 250 20)
    (mkCanvas 800 500 [])
    true.

(** The player stands at its starting point (50, 250), away from home; the
    waypoint is active at [(wx, 250)]. *)
Definition start_game (wx : R) : TurtleAdventureGame :=
  mkGame 1 800 500
    (mkWaypoint wx 250 true)
    (mkPlayer 5 (mkRawTurtle (50, 250) (1, 0)))
    (mkHome 700 250 20)
    (mkCanvas 800 500 [])
    true.

(** A chasing enemy spawned on the player's starting point (50, 250): the
    generator draws both coordinates with [random.randint] over the canvas. *)
Definition chaser_on_player : Frame ChasingEnemy :=
  mkFrame (mkChasingEnemy (mkEnemy 50 250 20 "blue") 2)
          (start_game 300)
          (fun _ => 0%Z).

(** A thief looking for the home while standing on its centre. *)
Definition thief_on_home : Frame ThiefEnemy :=
  mkFrame (mkThiefEnemy (mkEnemy 700 250 30 "green") 700 250 2 4 4 0 FIND_HOME)
          (start_game 300)
          (fun _ => 0%Z).

(** A thief bringing the home back while standing on the point it recorded
    when it was spawned; the home lies elsewhere. *)
Definition thief_on_snapshot : Frame ThiefEnemy :=
  mkFrame (mkThiefEnemy (mkEnemy 700 250 30 "green") 700 250 4 2 2 0 PLACE_HOME)
          (set_home (start_game 300) (mkHome 696 250 20))
          (fun _ => 0%Z).

(** A fencing enemy as [create_fencing_enemy] makes it with the offset 30,
    one unit above the lower boundary of its rectangle and moving down. *)
Definition fencer_above_corner : Frame FencingEnemy :=
  mkFrame (mkFencingEnemy (mkEnemy 670 279 15 "red") 2 670 730 220 280
                          MOVE_DOWN)
          (start_game 300)
          (fun _ => 0%Z).

(** A thief carrying the home, at (100, 100) with the velocity (4, 4); the
    clock stands still. *)
Definition thief_carrying : Frame ThiefEnemy :=
  mkFrame (mkThiefEnemy (mkEnemy 100 100 30 "green") 700 250 4 4 4 0 MOVE_HOME)
          (start_game 300)
          (fun _ => 0%Z).

(** A thief wandering at (100, 100) with the velocity (2, 2). *)
Definition thief_wandering : Frame ThiefEnemy :=
  mkFrame (mkThiefEnemy (mkEnemy 100 100 30 "green") 700 250 2 2 2 0
                        MOVE_RANDOM)
          (start_game 300)
          (fun _ => 0%Z).

(** A thief bringing the home back, 5 units short of the point (700, 250) it
    recorded when it was spawned, with the speed 4; the home has meanwhile
    been taken to (300, 100). *)
Definition thief_returning : Frame ThiefEnemy :=
  mkFrame (mkThiefEnemy (mkEnemy 695 250 30 "green") 700 250 4 2 2 0 PLACE_HOME)
          (set_home (start_game 300) (mkHome 300 100 20))
          (fun _ => 0%Z).

(** *** The fencing enemy's cycle *)

(** The state after [s] in the order move_down, move_right, move_up,
    move_left, move_down. *)
Definition Fencing_next (s : FencingState) : FencingState :=
  match s with
  | MOVE_DOWN => MOVE_RIGHT
  | MOVE_RIGHT => MOVE_UP
  | MOVE_UP => MOVE_LEFT
  | MOVE_LEFT => MOVE_DOWN
  end.

(** Where the step of the current state takes the enemy. *)
Definition Fencing_step_to (e : FencingEnemy) : R * R :=
  match Fencing_state e with
  | MOVE_DOWN => (x e, y e + Fencing_speed e)
  | MOVE_RIGHT => (x e + Fencing_speed e, y e)
  | MOVE_UP => (x e, y e - Fencing_speed e)
  | MOVE_LEFT => (x e - Fencing_speed e, y e)
  end.

(** The step of the current state takes the enemy across the boundary of
    that state. *)
Definition Fencing_crosses (e : FencingEnemy) : Prop :=
  match Fencing_state e with
  | MOVE_DOWN => y e + Fencing_speed e > Fencing_y_down e
  | MOVE_RIGHT => x e + Fencing_speed e > Fencing_x_right e
  | MOVE_UP => y e - Fencing_speed e < Fencing_y_up e
  | MOVE_LEFT => x e - Fencing_speed e < Fencing_x_left e
  end.

(** [Fencing_later e e']: the enemy [e] becomes [e'] by some number of
    updates, whatever the rest of the game does in between. *)
Inductive Fencing_later (e : FencingEnemy) : FencingEnemy -> Prop :=
| Fencing_later_now : Fencing_later e e
| Fencing_later_update (e' : FencingEnemy) (g : TurtleAdventureGame)
    (c : nat -> Z) :
    Fencing_later e e' ->
    Fencing_later e (self (frame_of (FencingEnemy_update (mkFrame e' g c)))).

(** *** Runs of the enemies *)

(** A chasing enemy 6 units to the left of the player's starting point. *)
Definition chaser_near_player : Frame ChasingEnemy :=
  mkFrame (mkChasingEnemy (mkEnemy 44 250 20 "blue") 2)
          (start_game 300)
          (fun _ => 0%Z).

(** The state after [s] in the order move_random, find_home, move_home,
    place_home, move_random. *)
Definition Thief_next (s : ThiefState) : ThiefState :=
  match s with
  | MOVE_RANDOM => FIND_HOME
  | FIND_HOME => MOVE_HOME
  | MOVE_HOME => PLACE_HOME
  | PLACE_HOME => MOVE_RANDOM
  end.

(** The seconds on the thief's timer at the next reading of the clock:
    [(time.time_ns() - self.start_time)/1e9]. *)
Definition Thief_timer (f : Frame ThiefEnemy) : R :=
  IZR (clock f 0%nat - Thief_start_time (self f)) / 1e9.

(** [Thief_later e e']: the thief [e] becomes [e'] by some number of
    updates, whatever the game and the clock are at each of them. *)
Inductive Thief_later (e : ThiefEnemy) : ThiefEnemy -> Prop :=
| Thief_later_now : Thief_later e e
| Thief_later_update (e' : ThiefEnemy) (g : TurtleAdventureGame)
    (c : nat -> Z) :
    Thief_later e e' ->
    Thief_later e (self (frame_of (ThiefEnemy_update (mkFrame e' g c)))).

(** The speeds that go with each state of a thief. *)
Definition Thief_paced (e : ThiefEnemy) : Prop :=
  match Thief_state e with
  | MOVE_RANDOM =>
      Thief_speed e = 2 /\
      Rabs (Thief_speed_x e) = 2 /\ Rabs (Thief_speed_y e) = 2
  | FIND_HOME =>
      Thief_speed e = 2 /\
      Rabs (Thief_speed_x e) = 4 /\ Rabs (Thief_speed_y e) = 4
  | MOVE_HOME =>
      Thief_speed e = 4 /\
      Rabs (Thief_speed_x e) = 4 /\ Rabs (Thief_speed_y e) = 4
  | PLACE_HOME =>
      Thief_speed e = 4 /\
      Rabs (Thief_speed_x e) = 2 /\ Rabs (Thief_speed_y e) = 2
  end.

(** *** Runs of one thief *)

(** [n] successive updates of one thief, with nothing else writing the game
    or reading the clock in between. *)
Fixpoint ThiefEnemy_updates (n : nat) (f : Frame ThiefEnemy)
  : Frame ThiefEnemy :=
  match n with
  | O => f
  | S n => ThiefEnemy_updates n (frame_of (ThiefEnemy_update f))
  end.

(** How far the thief is from the centre of the home. *)
Definition Thief_home_distance (f : Frame ThiefEnemy) : R :=
  sqrt ((Home_x (home (game f)) - x (self f)) ^ 2
        + (Home_y (home (game f)) - y (self f)) ^ 2).

(** A thief walking to the home from 10 units to its left. *)
Definition thief_seeking : Frame ThiefEnemy :=
  mkFrame (mkThiefEnemy (mkEnemy 690 250 30 "green") 700 250 2 4 4 0 FIND_HOME)
          (start_game 300)
          (fun _ => 0%Z).

(** *** A fencing enemy on patrol *)

(** The rectangle of a fencing enemy is not inside out and its speed not
    negative. *)
Definition Fencing_rectangle (e : FencingEnemy) : Prop :=
  0 <= Fencing_speed e /\
  Fencing_x_left e <= Fencing_x_right e /\
  Fencing_y_up e <= Fencing_y_down e.

(** Where a fencing enemy may be in each state: on the side of the rectangle
    it is moving along, at most one step beyond either end of it. *)
Definition Fencing_on_patrol (e : FencingEnemy) : Prop :=
  let s := Fencing_speed e in
  match Fencing_state e with
  | MOVE_DOWN =>
      Fencing_x_left e - s <= x e <= Fencing_x_left e /\
      Fencing_y_up e - s <= y e <= Fencing_y_down e
  | MOVE_RIGHT =>
      Fencing_x_left e - s <= x e <= Fencing_x_right e /\
      Fencing_y_down e < y e <= Fencing_y_down e + s
  | MOVE_UP =>
      Fencing_x_right e < x e <= Fencing_x_right e + s /\
      Fencing_y_up e <= y e <= Fencing_y_down e + s
  | MOVE_LEFT =>
      Fencing_x_left e <= x e <= Fencing_x_right e + s /\
      Fencing_y_up e - s <= y e < Fencing_y_up e
  end.

(** *** A random walk along one axis *)

(** The coordinate [pos] and the velocity [v] of a walker of pace [b] on an
    axis of the canvas with the extent [extent]: the walker is on the canvas,
    or it is less than a step off it and has already turned back. *)
Definition axis_near (b extent pos v : R) : Prop :=
  Rabs v = b /\
  ((0 <= pos <= extent) \/
   (pos < 0 /\ 0 < v /\ - v <= pos) \/
   (extent < pos /\ v < 0 /\ pos <= extent - v)).

Definition RandomWalk_near (b width height : R) (e : RandomWalkEnemy) : Prop :=
  axis_near b width (x e) (RandomWalk_speed_x e) /\
  axis_near b height (y e) (RandomWalk_speed_y e).

(** [RandomWalk_later width height e e']: the enemy [e] becomes [e'] by some
    number of updates on a canvas that keeps the size [width] x [height]. *)
Inductive RandomWalk_later (width height : R) (e : RandomWalkEnemy)
  : RandomWalkEnemy -> Prop :=
| RandomWalk_later_now : RandomWalk_later width height e e
| RandomWalk_later_update (e' : RandomWalkEnemy) (g : TurtleAdventureGame)
    (c : nat -> Z) :
    winfo_width (canvas g) = width ->
    winfo_height (canvas g) = height ->
    RandomWalk_later width height e e' ->
    RandomWalk_later width height e
      (self (frame_of (RandomWalkEnemy_update (mkFrame e' g c)))).

(* ===================================================================== *)
(** ** EnemyGenerator *)
(* ===================================================================== *)

(** Python's [int(v)] of a number: the integer towards zero. *)
Definition int (v : R) : Z :=
  if Rle_dec 0 v then Int_part v else (- Int_part (- v))%Z.

(** The four methods that create an enemy.  Each takes the values its calls
    of [random.randint] return, and gives the enemy it builds and places.
    What the method does besides is done by gamelib and tkinter and leaves
    the enemy as it is: [add_element] registers it, [after] has the method
    called again later.  [(x0, y0)] is the position [GameElement.__init__]
    gives a new element, [now] what [time.time_ns()] returns in
    [ThiefEnemy.__init__]. *)

(** [rx] is [random.randint(0, winfo_width())], [ry] is
    [random.randint(0, winfo_height())]. *)
Definition create_random_walk_enemy (x0 y0 : R) (rx ry : Z)
  : RandomWalkEnemy :=
  let new_enemy := RandomWalkEnemy_init x0 y0 25 "yellow" in
  let new_enemy := set_x new_enemy (IZR rx) in
  let new_enemy := set_y new_enemy (IZR ry) in
  new_enemy.

Definition create_chasing_enemy (x0 y0 : R) (rx ry : Z) : ChasingEnemy :=
  let new_enemy := ChasingEnemy_init x0 y0 20 "blue" in
  let new_enemy := set_x new_enemy (IZR rx) in
  let new_enemy := set_y new_enemy (IZR ry) in
  new_enemy.

(** [dis] is [random.randint(20, 40)]. *)
Definition create_fencing_enemy (x0 y0 : R) (game : TurtleAdventureGame)
    (dis : Z) : FencingEnemy :=
  let dis_x := int (Home_x (home game) - IZR dis) in
  let dis_y := int (Home_y (home game) - IZR dis) in
  let new_enemy :=
    FencingEnemy_init x0 y0 game 15 "red" (IZR dis_x) (IZR dis_y) in
  let new_enemy := set_x new_enemy (IZR dis_x) in
  let new_enemy := set_y new_enemy (IZR dis_y) in
  new_enemy.

Definition create_my_enemy (x0 y0 : R) (game : TurtleAdventureGame)
    (now : Z) (rx ry : Z) : ThiefEnemy :=
  let new_enemy := ThiefEnemy_init x0 y0 game 30 "green" now in
  let new_enemy := set_x new_enemy (IZR rx) in
  let new_enemy := set_y new_enemy (IZR ry) in
  new_enemy.

(* ===================================================================== *)
(** * Properties *)
(* ===================================================================== *)

(** ** Comparisons *)

Lemma Rleb_true_iff (a b : R) : (a <=? b) = true <-> a <= b.
Proof. unfold Rleb. destruct (Rle_dec a b); split; intros; easy. Qed.

Lemma Rltb_true_iff (a b : R) : (a <? b) = true <-> a < b.
Proof. unfold Rltb. destruct (Rlt_dec a b); split; intros; easy. Qed.

Lemma Rltb_false_iff (a b : R) : (a <? b) = false <-> b <= a.
Proof.
  unfold Rltb. destruct (Rlt_dec a b); split; intros; try easy; lra.
Qed.

Lemma Rgtb_true_iff (a b : R) : (a >? b) = true <-> a > b.
Proof. unfold Rgtb. rewrite Rltb_true_iff. lra. Qed.

Lemma Rgtb_false_iff (a b : R) : (a >? b) = false <-> a <= b.
Proof. unfold Rgtb. apply Rltb_false_iff. Qed.

Lemma between_le_iff (a b c : R) : (a <=? b <=? c) = true <-> a <= b <= c.
Proof. rewrite andb_true_iff, !Rleb_true_iff. tauto. Qed.

Lemma between_lt_iff (a b c : R) : (a <? b <? c) = true <-> a < b < c.
Proof. rewrite andb_true_iff, !Rltb_true_iff. tauto. Qed.

(** [x < 0 or x > extent], the test of the elastic bounce. *)
Lemma outside_true_iff (v extent : R) :
  (v <? 0) || (v >? extent) = true <-> v < 0 \/ v > extent.
Proof. rewrite orb_true_iff, Rltb_true_iff, Rgtb_true_iff. tauto. Qed.

Lemma truediv_zero (a : R) : truediv a 0 = inl ZeroDivisionError.
Proof. unfold truediv. destruct (Req_dec_T 0 0); [reflexivity | lra]. Qed.

(** ** Home.contains *)

Lemma Home_contains_true (h : Home) (px py : R) :
  Home_x h - Home_size h / 2 <= px <= Home_x h + Home_size h / 2 ->
  Home_y h - Home_size h / 2 <= py <= Home_y h + Home_size h / 2 ->
  Home_contains h px py = true.
Proof.
  intros Hx Hy. unfold Home_contains.
  rewrite andb_true_iff, !between_le_iff. tauto.
Qed.

(** C5. [Home.contains(x, y)] is true exactly when [x] lies between
    [hx - size/2] and [hx + size/2] and [y] between [hy - size/2] and
    [hy + size/2], the four bounds included. *)
Theorem Home_contains_iff (h : Home) (px py : R) :
  Home_contains h px py = true <->
  (Home_x h - Home_size h / 2 <= px <= Home_x h + Home_size h / 2) /\
  (Home_y h - Home_size h / 2 <= py <= Home_y h + Home_size h / 2).
Proof.
  unfold Home_contains.
  rewrite andb_true_iff, !between_le_iff. tauto.
Qed.

(** ** Enemy.hits_player *)

(** C6. [hits_player()] is true exactly when the player's position lies
    strictly between [ex - size/2] and [ex + size/2] and strictly between
    [ey - size/2] and [ey + size/2]; in particular a player on an edge of the
    box is not hit. *)
Theorem Enemy_hits_player_iff {E : Type} `{EnemyClass E}
    (e : E) (g : TurtleAdventureGame) :
  let px := Player_x (player g) in
  let py := Player_y (player g) in
  (hits_player e g = true <->
     (x e - size e / 2 < px < x e + size e / 2) /\
     (y e - size e / 2 < py < y e + size e / 2))
  /\
  (px = x e - size e / 2 \/ px = x e + size e / 2 \/
   py = y e - size e / 2 \/ py = y e + size e / 2 ->
   hits_player e g = false).
Proof.
  intros px py.
  assert (Hiff : hits_player e g = true <->
     (x e - size e / 2 < px < x e + size e / 2) /\
     (y e - size e / 2 < py < y e + size e / 2)).
  { unfold hits_player. rewrite andb_true_iff, !between_lt_iff. tauto. }
  split; [exact Hiff |].
  intros Hedge. apply not_true_is_false. rewrite Hiff. lra.
Qed.

Lemma Enemy_hits_player_iff_witness :
  hits_player (mkChasingEnemy (mkEnemy 60 250 20 "blue") 2) (start_game 300)
  = false.
Proof.
  refine (proj2 (Enemy_hits_player_iff
                   (mkChasingEnemy (mkEnemy 60 250 20 "blue") 2)
                   (start_game 300)) _).
  left. unfold x, size. cbn. lra.
Defined.

(** ** The turtle *)

Lemma sqrt_sum_squares_sq (a b : R) :
  sqrt (a ^ 2 + b ^ 2) * sqrt (a ^ 2 + b ^ 2) = a ^ 2 + b ^ 2.
Proof. apply sqrt_sqrt. nra. Qed.

(** A heading is a unit vector. *)
Lemma towards_unit (t : RawTurtle) (px py : R) :
  fst (towards t px py) ^ 2 + snd (towards t px py) ^ 2 = 1.
Proof.
  unfold towards, distance.
  set (a := px - xcor t). set (b := py - ycor t).
  destruct (Req_dec_T (sqrt (a ^ 2 + b ^ 2)) 0) as [Hd | Hd]; cbn [fst snd].
  - ring.
  - pose proof (sqrt_sum_squares_sq a b) as Hsq.
    set (d := sqrt (a ^ 2 + b ^ 2)) in *.
    field_simplify_eq; [| exact Hd]. nra.
Qed.

(** [forward d] after [setheading h] moves the turtle by [|d|] when [h] is a
    unit vector. *)
Lemma forward_distance (t : RawTurtle) (h : R * R) (d : R) :
  fst h ^ 2 + snd h ^ 2 = 1 ->
  let t' := forward (setheading t h) d in
  distance t (xcor t') (ycor t') = Rabs d.
Proof.
  intros Hu t'. unfold distance, t', forward, setheading, xcor, ycor.
  cbn [position orient fst snd].
  rewrite <- sqrt_Rsqr_abs. f_equal. unfold Rsqr. nra.
Qed.

Lemma forward_moves (t : RawTurtle) (h : R * R) (d : R) :
  fst h ^ 2 + snd h ^ 2 = 1 -> d <> 0 ->
  position (forward (setheading t h) d) <> position t.
Proof.
  intros Hu Hd Heq. unfold forward, setheading, xcor, ycor in Heq.
  cbn [position orient] in Heq.
  destruct (position t) as [px py]. cbn [fst snd] in Heq.
  injection Heq as Hx Hy.
  assert (H1 : fst h * d = 0) by lra.
  assert (H2 : snd h * d = 0) by lra.
  apply Rmult_integral in H1. apply Rmult_integral in H2.
  destruct H1 as [H1 | H1]; [| contradiction].
  destruct H2 as [H2 | H2]; [| contradiction].
  rewrite H1, H2 in Hu. lra.
Qed.

(** ** Player.update *)

(** What [Player.update] does to the turtle, the waypoint and the rest of the
    game, by the two tests it makes. *)
Lemma Player_update_inactive (g : TurtleAdventureGame) :
  Waypoint_is_active (waypoint g) = false ->
  Player_update g =
  if Home_contains (home g) (Player_x (player g)) (Player_y (player g))
  then game_over_win g else g.
Proof.
  intros Hw. unfold Player_update.
  destruct (Home_contains _ _ _); cbn; rewrite Hw; reflexivity.
Qed.

Lemma Player_update_turtle (g : TurtleAdventureGame) :
  Waypoint_is_active (waypoint g) = true ->
  let t := Player_turtle (player g) in
  let w := waypoint g in
  Player_turtle (player (Player_update g)) =
  forward (setheading t (towards t (Waypoint_x w) (Waypoint_y w)))
          (Player_speed (player g)).
Proof.
  intros Hw t w. unfold Player_update.
  destruct (Home_contains _ _ _); cbn; rewrite Hw;
    match goal with |- context [if ?c then _ else _] => destruct c end;
    reflexivity.
Qed.

Lemma Player_update_waypoint (g : TurtleAdventureGame) :
  Waypoint_is_active (waypoint g) = true ->
  let w := waypoint g in
  let t' := Player_turtle (player (Player_update g)) in
  waypoint (Player_update g) =
  if distance t' (Waypoint_x w) (Waypoint_y w) <? Player_speed (player g)
  then Waypoint_deactivate w else w.
Proof.
  intros Hw w t'. unfold t'. rewrite (Player_update_turtle g Hw).
  unfold Player_update.
  destruct (Home_contains _ _ _); cbn; rewrite Hw; fold w;
    match goal with |- context [if ?c then _ else _] => destruct c end;
    reflexivity.
Qed.

Lemma Player_update_win (g : TurtleAdventureGame) :
  Home_contains (home g) (Player_x (player g)) (Player_y (player g)) = true ->
  is_started (Player_update g) = false /\
  texts (canvas (Player_update g)) = texts (canvas g) ++ [win_banner g].
Proof.
  intros Hc. unfold Player_update. rewrite Hc.
  destruct (Waypoint_is_active (waypoint (game_over_win g))); cbn;
    [ match goal with |- context [if ?c then _ else _] => destruct c end |];
    split; reflexivity.
Qed.

(** C1, as the code has it.  When [Home.contains(player.x, player.y)] holds
    at the start of the tick, [Player.update] raises the win signal first
    (the tick loop is halted and the "You Win" banner drawn) and then goes on
    as in any other tick: the player stays where it is only if the waypoint
    is inactive; with an active waypoint it turns towards the waypoint and
    advances by its speed, so that it ends [|speed|] away from where it
    started. *)
Theorem Player_update_at_home (g : TurtleAdventureGame) :
  Home_contains (home g) (Player_x (player g)) (Player_y (player g)) = true ->
  let g' := Player_update g in
  let t := Player_turtle (player g) in
  let t' := Player_turtle (player g') in
  let w := waypoint g in
  (is_started g' = false /\
   texts (canvas g') = texts (canvas g) ++ [win_banner g]) /\
  (Waypoint_is_active w = false -> t' = t) /\
  (Waypoint_is_active w = true ->
   t' = forward (setheading t (towards t (Waypoint_x w) (Waypoint_y w)))
                (Player_speed (player g)) /\
   distance t (xcor t') (ycor t') = Rabs (Player_speed (player g)) /\
   (Player_speed (player g) <> 0 -> position t' <> position t)).
Proof.
  intros Hc g' t t' w. split; [| split].
  - exact (Player_update_win g Hc).
  - intros Hw. unfold t', g'. rewrite (Player_update_inactive g Hw), Hc.
    reflexivity.
  - intros Hw. unfold t', g'. rewrite (Player_update_turtle g Hw).
    fold t w. split; [reflexivity | split].
    + apply forward_distance, towards_unit.
    + intros Hs. apply forward_moves; [apply towards_unit | exact Hs].
Qed.

(** *** The scenarios, step by step *)

Lemma sqrt_axis (a b : R) : 0 <= a -> b = 0 -> sqrt (a ^ 2 + b ^ 2) = a.
Proof.
  intros Ha Hb. subst b.
  replace (a ^ 2 + 0 ^ 2) with (a * a) by ring.
  apply sqrt_square, Ha.
Qed.

(** A turtle at [(px, py)] sent [d] units towards a point [a > 0] units
    further along the first axis lands on [(px + d, py)]. *)
Lemma forward_along_first_axis (px py a d : R) (o : R * R) :
  0 < a ->
  let t := mkRawTurtle (px, py) o in
  position (forward (setheading t (towards t (px + a) py)) d) = (px + d, py).
Proof.
  intros Ha t. unfold towards, distance, t, xcor, ycor. cbn [position fst snd].
  replace (px + a - px) with a by ring.
  rewrite (sqrt_axis a (py - py)) by lra.
  destruct (Req_dec_T a 0) as [H0 | H0]; [lra |].
  unfold forward, setheading, xcor, ycor. cbn [position orient fst snd].
  f_equal; field; exact H0.
Qed.

Lemma arrived_game_contains :
  Home_contains (home arrived_game) (Player_x (player arrived_game))
                (Player_y (player arrived_game)) = true.
Proof. apply Home_contains_true; cbn; lra. Qed.

Lemma arrived_game_position :
  position (Player_turtle (player (Player_update arrived_game))) = (705, 250).
Proof.
  rewrite Player_update_turtle by reflexivity.
  change (position
            (forward
               (setheading (mkRawTurtle (700, 250) (1, 0))
                  (towards (mkRawTurtle (700, 250) (1, 0)) 708 250)) 5)
          = (705, 250)).
  replace 708 with (700 + 8) by lra.
  rewrite (forward_along_first_axis 700 250 8 5 (1, 0)) by lra.
  f_equal. lra.
Qed.

Lemma Player_update_at_home_witness :
  is_started (Player_update arrived_game) = false.
Proof.
  exact (proj1 (proj1 (Player_update_at_home arrived_game
                         arrived_game_contains))).
Defined.

(** C1, as the spec states it, fails: the player stands in its home at the
    start of the tick, the waypoint is active, and [Player.update] moves the
    player from (700, 250) to (705, 250). *)
Lemma Player_update_at_home_moves :
  Home_contains (home arrived_game) (Player_x (player arrived_game))
                (Player_y (player arrived_game)) = true /\
  Waypoint_is_active (waypoint arrived_game) = true /\
  position (Player_turtle (player arrived_game)) = (700, 250) /\
  position (Player_turtle (player (Player_update arrived_game))) = (705, 250) /\
  position (Player_turtle (player (Player_update arrived_game))) <>
  position (Player_turtle (player arrived_game)).
Proof.
  split; [exact arrived_game_contains |].
  split; [reflexivity |]. split; [reflexivity |].
  split; [exact arrived_game_position |].
  rewrite arrived_game_position. cbn. intros Heq.
  injection Heq as Hx. lra.
Qed.

(** *** The waypoint *)

(** Where a step towards a point leaves the turtle, measured from that
    point: [|d - s|] for a step of [s] from the distance [d > 0]. *)
Lemma towards_forward_distance (t : RawTurtle) (wx wy s : R) :
  distance t wx wy <> 0 ->
  distance (forward (setheading t (towards t wx wy)) s) wx wy
  = Rabs (distance t wx wy - s).
Proof.
  intros Hd. unfold towards.
  destruct (Req_dec_T (distance t wx wy) 0) as [H0 | _]; [contradiction |].
  revert Hd. unfold distance, forward, setheading, xcor, ycor.
  cbn [position orient fst snd].
  set (a := wx - fst (position t)). set (b := wy - snd (position t)).
  intros Hd. pose proof (sqrt_sum_squares_sq a b) as Hsq.
  set (d := sqrt (a ^ 2 + b ^ 2)) in *.
  rewrite <- sqrt_Rsqr_abs. f_equal. unfold Rsqr.
  replace (wx - (fst (position t) + a / d * s)) with (a * ((d - s) / d))
    by (unfold a; field; exact Hd).
  replace (wy - (snd (position t) + b / d * s)) with (b * ((d - s) / d))
    by (unfold b; field; exact Hd).
  transitivity ((a ^ 2 + b ^ 2) * ((d - s) / d) ^ 2); [ring |].
  rewrite <- Hsq. field. exact Hd.
Qed.

(** C2, as the code has it.  In a tick with an active waypoint,
    [Player.update] deactivates the waypoint exactly when the distance from
    the player to the waypoint, measured after the move, is strictly below
    the player's speed.  An inactive waypoint stays inactive. *)
Theorem Player_update_deactivates_iff (g : TurtleAdventureGame) :
  let g' := Player_update g in
  let w := waypoint g in
  let t' := Player_turtle (player g') in
  let speed := Player_speed (player g) in
  (Waypoint_is_active w = true ->
   (Waypoint_is_active (waypoint g') = false <->
    distance t' (Waypoint_x w) (Waypoint_y w) < speed)) /\
  (Waypoint_is_active w = false ->
   Waypoint_is_active (waypoint g') = false).
Proof.
  intros g' w t' speed. split.
  - intros Hw. unfold g'. rewrite (Player_update_waypoint g Hw).
    fold g' w t' speed.
    destruct (distance t' (Waypoint_x w) (Waypoint_y w) <? speed) eqn:Hlt.
    + apply Rltb_true_iff in Hlt. cbn. tauto.
    + apply Rltb_false_iff in Hlt. rewrite Hw. split; [discriminate | lra].
  - intros Hw. unfold g'. rewrite (Player_update_inactive g Hw).
    destruct (Home_contains _ _ _); exact Hw.
Qed.

Lemma start_game_position (a : R) :
  0 < a ->
  position (Player_turtle (player (Player_update (start_game (50 + a)))))
  = (55, 250).
Proof.
  intros Ha. rewrite Player_update_turtle by reflexivity.
  change (position
            (forward
               (setheading (mkRawTurtle (50, 250) (1, 0))
                  (towards (mkRawTurtle (50, 250) (1, 0)) (50 + a) 250)) 5)
          = (55, 250)).
  rewrite (forward_along_first_axis 50 250 a 5 (1, 0)) by lra.
  f_equal. lra.
Qed.

Lemma start_game_distance (a : R) :
  0 <= a ->
  distance (Player_turtle (player (start_game (50 + a)))) (50 + a) 250 = a.
Proof.
  intros Ha. unfold distance. cbn.
  replace (50 + a - 50) with a by ring.
  apply sqrt_axis; lra.
Qed.

Lemma Player_update_deactivates_iff_witness :
  Waypoint_is_active (waypoint (Player_update (start_game (50 + 8)))) = false
  <->
  distance (Player_turtle (player (Player_update (start_game (50 + 8)))))
           (50 + 8) 250 < 5.
Proof.
  exact (proj1 (Player_update_deactivates_iff (start_game (50 + 8))) eq_refl).
Defined.

(** C2, as the spec states it, fails in both directions.  With the waypoint
    8 units ahead of a player of speed 5, the distance before the move is not
    below the speed, yet the waypoint is deactivated (the player ends 3 units
    short of it).  With the waypoint on the player itself the distance before
    the move is 0, below the speed, yet the waypoint stays active (the player
    steps 5 units away from it). *)
Lemma Player_update_deactivation_not_by_distance_before :
  (Waypoint_is_active (waypoint (start_game (50 + 8))) = true /\
   ~ distance (Player_turtle (player (start_game (50 + 8)))) (50 + 8) 250
     < Player_speed (player (start_game (50 + 8))) /\
   Waypoint_is_active (waypoint (Player_update (start_game (50 + 8)))) = false)
  /\
  (Waypoint_is_active (waypoint (start_game (50 + 0))) = true /\
   distance (Player_turtle (player (start_game (50 + 0)))) (50 + 0) 250
   < Player_speed (player (start_game (50 + 0))) /\
   Waypoint_is_active (waypoint (Player_update (start_game (50 + 0)))) = true).
Proof.
  split.
  - split; [reflexivity |]. split.
    + rewrite start_game_distance by lra. cbn. lra.
    + rewrite Player_update_waypoint by reflexivity.
      assert (Hd : distance
                     (Player_turtle
                        (player (Player_update (start_game (50 + 8)))))
                     (50 + 8) 250 = 3).
      { unfold distance, xcor, ycor. rewrite start_game_position by lra.
        cbn [fst snd]. replace (50 + 8 - 55) with 3 by lra.
        apply sqrt_axis; lra. }
      cbn [waypoint start_game Waypoint_x Waypoint_y player Player_speed].
      rewrite Hd.
      replace (3 <? 5) with true by (symmetry; apply Rltb_true_iff; lra).
      reflexivity.
  - split; [reflexivity |]. split.
    + rewrite start_game_distance by lra. cbn. lra.
    + rewrite Player_update_waypoint by reflexivity.
      assert (Hd : distance
                     (Player_turtle
                        (player (Player_update (start_game (50 + 0)))))
                     (50 + 0) 250 = 5).
      { rewrite Player_update_turtle by reflexivity.
        change (Waypoint_x (waypoint (start_game (50 + 0)))) with (50 + 0).
        change (Waypoint_y (waypoint (start_game (50 + 0)))) with 250.
        change (Player_speed (player (start_game (50 + 0)))) with 5.
        unfold towards. rewrite (start_game_distance 0) by lra.
        change (Player_turtle (player (start_game (50 + 0))))
          with (mkRawTurtle (50, 250) (1, 0)).
        destruct (Req_dec_T 0 0) as [_ | H0]; [| lra].
        unfold distance, forward, setheading, xcor, ycor.
        cbn [position orient fst snd].
        replace (50 + 0 - (50 + 1 * 5)) with (- (5)) by lra.
        replace ((- (5)) ^ 2 + (250 - (250 + 0 * 5)) ^ 2) with (5 * 5) by lra.
        apply sqrt_square; lra. }
      cbn [waypoint start_game Waypoint_x Waypoint_y player Player_speed].
      rewrite Hd.
      replace (5 <? 5) with false by (symmetry; apply Rltb_false_iff; lra).
      reflexivity.
Qed.

(** ** game_over_win and game_over_lose *)

(** C4, as the code has it.  Whichever two terminal transitions are invoked
    one after the other, the tick loop is halted after the first and still
    halted after the second, and each invocation draws its banner: after the
    second the canvas holds two banners more than before the first.  Nothing
    else of the game changes. *)
Theorem game_over_twice (g : TurtleAdventureGame) (k1 k2 : GameOver) :
  let g1 := game_over k1 g in
  let g2 := game_over k2 g1 in
  is_started g1 = false /\
  is_started g2 = false /\
  texts (canvas g1) = texts (canvas g) ++ [banner k1 g] /\
  texts (canvas g2) = texts (canvas g) ++ [banner k1 g; banner k2 g] /\
  (waypoint g2, player g2, home g2) = (waypoint g, player g, home g).
Proof.
  destruct k1, k2; cbn; rewrite <- app_assoc; repeat split.
Qed.

(** C4, as the spec states it, fails: the game is lost twice in one tick and
    the canvas, empty before, holds one "You Lose" banner after the first
    invocation and two after the second. *)
Lemma game_over_lose_twice_two_banners :
  texts (canvas arrived_game) = [] /\
  texts (canvas (game_over_lose arrived_game)) = [lose_banner arrived_game] /\
  texts (canvas (game_over_lose (game_over_lose arrived_game)))
  = [lose_banner arrived_game; lose_banner arrived_game] /\
  List.length (texts (canvas (game_over_lose (game_over_lose arrived_game))))
  = 2%nat.
Proof. repeat split. Qed.

(** ** Methods of the enemies *)

(** Unfolds the plumbing of a method so that its tests show. *)
Ltac unfold_method :=
  unfold check_hit, bind, ret, get_self, get_game, modify_self, modify_game,
    time_ns, div, truediv, when, frame_of, returned in *.

(** Splits on a test met while the method runs. *)
Ltac case_test :=
  match goal with
  | |- context [if ?c then _ else _] =>
      lazymatch type of c with
      | bool => destruct c eqn:?
      | sumbool _ _ => destruct c
      end
  end.

Ltac run_method := unfold_method; cbn; repeat (case_test; cbn).

Lemma div_by_zero {E : Type} (a : R) (f : Frame E) :
  div a 0 f = Raise ZeroDivisionError f.
Proof. unfold div. rewrite truediv_zero. reflexivity. Qed.

Lemma sqrt_sum_squares_at_zero (a b : R) :
  a = 0 -> b = 0 -> sqrt (a ^ 2 + b ^ 2) = 0.
Proof.
  intros -> ->. replace (0 ^ 2 + 0 ^ 2) with 0 by ring. apply sqrt_0.
Qed.

(** ** The pursuit steps at distance zero *)

(** C3 on the code.  Each of the three normalise-and-step updates divides by
    the distance to its target without testing it: when the pursuer stands
    exactly on its target the first division raises [ZeroDivisionError], and
    the update ends there instead of completing with no displacement.
    [place_home] has by then already moved the home onto the thief. *)
Theorem pursuit_at_zero_distance_raises :
  (forall f : Frame ChasingEnemy,
     x (self f) = Player_x (player (game f)) ->
     y (self f) = Player_y (player (game f)) ->
     ChasingEnemy_update f = Raise ZeroDivisionError f)
  /\
  (forall f : Frame ThiefEnemy,
     x (self f) = Home_x (home (game f)) ->
     y (self f) = Home_y (home (game f)) ->
     ThiefEnemy_find_home f = Raise ZeroDivisionError f)
  /\
  (forall f : Frame ThiefEnemy,
     x (self f) = Thief_home_x (self f) ->
     y (self f) = Thief_home_y (self f) ->
     ThiefEnemy_place_home f =
     Raise ZeroDivisionError
       (mkFrame (self f)
          (set_home (game f)
             (mkHome (x (self f)) (y (self f)) (Home_size (home (game f)))))
          (clock f))).
Proof.
  split; [| split]; intros [e g c] Hx Hy; cbn [self game clock] in *.
  - unfold ChasingEnemy_update, bind, get_self, get_game. cbn [self game].
    rewrite sqrt_sum_squares_at_zero by lra. rewrite div_by_zero. reflexivity.
  - unfold ThiefEnemy_find_home, bind, get_self, get_game. cbn [self game].
    rewrite sqrt_sum_squares_at_zero by lra. rewrite div_by_zero. reflexivity.
  - unfold ThiefEnemy_place_home, bind, get_self, modify_game.
    cbn [self game clock].
    rewrite sqrt_sum_squares_at_zero by lra. rewrite div_by_zero. reflexivity.
Qed.

Lemma pursuit_at_zero_distance_raises_witness :
  ChasingEnemy_update chaser_on_player
  = Raise ZeroDivisionError chaser_on_player
  /\ ThiefEnemy_find_home thief_on_home = Raise ZeroDivisionError thief_on_home
  /\ ThiefEnemy_place_home thief_on_snapshot
     = Raise ZeroDivisionError
         (mkFrame (self thief_on_snapshot)
            (set_home (game thief_on_snapshot) (mkHome 700 250 20))
            (clock thief_on_snapshot)).
Proof.
  split; [| split].
  - exact (proj1 pursuit_at_zero_distance_raises chaser_on_player
                 eq_refl eq_refl).
  - exact (proj1 (proj2 pursuit_at_zero_distance_raises) thief_on_home
                 eq_refl eq_refl).
  - exact (proj2 (proj2 pursuit_at_zero_distance_raises) thief_on_snapshot
                 eq_refl eq_refl).
Defined.

(** ** FencingEnemy *)

Lemma FencingEnemy_update_step (f : Frame FencingEnemy) :
  let e := self f in
  let r := FencingEnemy_update f in
  let e' := self (frame_of r) in
  returned r = true /\
  (x e', y e') = Fencing_step_to e /\
  (Fencing_crosses e -> Fencing_state e' = Fencing_next (Fencing_state e)) /\
  (~ Fencing_crosses e -> Fencing_state e' = Fencing_state e).
Proof.
  destruct f as [[[ex ey sz col] sp xl xr yu yd st] g c].
  unfold FencingEnemy_update, FencingEnemy_call_state, Fencing_crosses,
    Fencing_step_to, x, y.
  destruct st;
    unfold FencingEnemy_move_down, FencingEnemy_move_right,
      FencingEnemy_move_up, FencingEnemy_move_left;
    run_method;
    repeat match goal with
           | H : (_ >? _) = true |- _ => apply Rgtb_true_iff in H
           | H : (_ >? _) = false |- _ => apply Rgtb_false_iff in H
           | H : (_ <? _) = true |- _ => apply Rltb_true_iff in H
           | H : (_ <? _) = false |- _ => apply Rltb_false_iff in H
           end;
    unfold x, y in *; cbn in *;
    (split; [reflexivity |]; split; [reflexivity |];
     split; intros; try easy; lra).
Qed.

Lemma Fencing_next_neq (s : FencingState) : Fencing_next s <> s.
Proof. destruct s; discriminate. Qed.

Lemma Fencing_crosses_dec (e : FencingEnemy) :
  Fencing_crosses e \/ ~ Fencing_crosses e.
Proof.
  unfold Fencing_crosses.
  destruct (Fencing_state e);
    match goal with
    | |- ?a > ?b \/ _ => destruct (Rlt_dec b a); [left | right]; lra
    | |- ?a < ?b \/ _ => destruct (Rlt_dec a b); [left | right]; lra
    end.
Qed.

(** C7. A fencing enemy starts in move_down.  Every update completes, takes
    the step of the current state, and leaves the state as it is unless that
    step crosses the state's boundary (below [y_down], right of [x_right],
    above [y_up], left of [x_left]), in which case the state becomes the next
    one in the order move_down, move_right, move_up, move_left, move_down.  So
    the state changes exactly when the boundary is crossed, never to the
    previous state of the cycle, and over any number of updates it only
    advances along the cycle. *)
Theorem FencingEnemy_cyclic_order :
  (forall (x0 y0 : R) (g : TurtleAdventureGame) (sz : R) (col : string)
          (x_left y_up : R),
     Fencing_state (FencingEnemy_init x0 y0 g sz col x_left y_up) = MOVE_DOWN)
  /\
  (forall f : Frame FencingEnemy,
     let e := self f in
     let r := FencingEnemy_update f in
     let e' := self (frame_of r) in
     returned r = true /\
     (x e', y e') = Fencing_step_to e /\
     (Fencing_crosses e -> Fencing_state e' = Fencing_next (Fencing_state e)) /\
     (~ Fencing_crosses e -> Fencing_state e' = Fencing_state e) /\
     (Fencing_state e' <> Fencing_state e <-> Fencing_crosses e) /\
     Fencing_next (Fencing_state e') <> Fencing_state e)
  /\
  (forall e e' : FencingEnemy,
     Fencing_later e e' ->
     exists k : nat,
       Fencing_state e' = Nat.iter k Fencing_next (Fencing_state e)).
Proof.
  split; [reflexivity | split].
  - intros f e r e'.
    destruct (FencingEnemy_update_step f) as (Hret & Hpos & Hyes & Hno).
    fold e r e' in Hret, Hpos, Hyes, Hno.
    repeat split; try assumption.
    + intros Hne. destruct (Fencing_crosses_dec e) as [Hc | Hc]; [exact Hc |].
      elim Hne. exact (Hno Hc).
    + intros Hc. rewrite (Hyes Hc). apply Fencing_next_neq.
    + destruct (Fencing_crosses_dec e) as [Hc | Hc].
      * rewrite (Hyes Hc). destruct (Fencing_state e); discriminate.
      * rewrite (Hno Hc). apply Fencing_next_neq.
  - intros e e' Hlater. induction Hlater as [| e' g c Hlater [k IH]].
    + exists 0%nat. reflexivity.
    + destruct (FencingEnemy_update_step (mkFrame e' g c))
        as (_ & _ & Hyes & Hno).
      cbn [self] in Hyes, Hno.
      destruct (Fencing_crosses_dec e') as [Hc | Hc].
      * exists (S k). rewrite (Hyes Hc), IH. reflexivity.
      * exists k. rewrite (Hno Hc). exact IH.
Qed.

Lemma FencingEnemy_cyclic_order_witness :
  Fencing_state (self (frame_of (FencingEnemy_update fencer_above_corner)))
  = MOVE_RIGHT.
Proof.
  refine (proj1 (proj2 (proj2 (proj1 (proj2 FencingEnemy_cyclic_order)
                                     fencer_above_corner))) _).
  unfold Fencing_crosses, y. cbn. lra.
Defined.

(** ** ThiefEnemy *)

(** Turns the recorded outcomes of the tests into inequalities. *)
Ltac reflect_tests :=
  repeat match goal with
         | H : (_ <? _) || (_ >? _) = true |- _ => apply outside_true_iff in H
         | H : (_ <? _) || (_ >? _) = false |- _ =>
             apply orb_false_iff in H; destruct H
         | H : (_ >? _) = true |- _ => apply Rgtb_true_iff in H
         | H : (_ >? _) = false |- _ => apply Rgtb_false_iff in H
         | H : (_ <? _) = true |- _ => apply Rltb_true_iff in H
         | H : (_ <? _) = false |- _ => apply Rltb_false_iff in H
         | H : (_ <=? _ <=? _) && (_ <=? _ <=? _) = true |- _ =>
             apply andb_true_iff in H; destruct H
         | H : (_ <=? _ <=? _) = true |- _ => apply between_le_iff in H
         end.

Ltac unfold_thief :=
  unfold ThiefEnemy_update, ThiefEnemy_call_state, ThiefEnemy_move_random,
    ThiefEnemy_find_home, ThiefEnemy_move_home, ThiefEnemy_place_home,
    Thief_elapsed, Thief_restart_timer.

(** In move_home and place_home the update first puts the home where the
    thief stands, and nothing later in the update moves the home. *)
Lemma ThiefEnemy_update_carrying (f : Frame ThiefEnemy) :
  Thief_state (self f) = MOVE_HOME \/ Thief_state (self f) = PLACE_HOME ->
  home (game (frame_of (ThiefEnemy_update f)))
  = mkHome (x (self f)) (y (self f)) (Home_size (home (game f))).
Proof.
  destruct f as [[[ex ey sz col] hx hy sp sx sy t0 st] g c].
  cbn [self game Thief_state]. intros [-> | ->];
    unfold_thief; unfold x, y; run_method; reflexivity.
Qed.

(** The step of move_home. *)
Lemma ThiefEnemy_update_move_home (f : Frame ThiefEnemy) :
  Thief_state (self f) = MOVE_HOME ->
  returned (ThiefEnemy_update f) = true /\
  x (self (frame_of (ThiefEnemy_update f)))
  = x (self f) + Thief_speed_x (self f)
  /\
  y (self (frame_of (ThiefEnemy_update f)))
  = y (self f) + Thief_speed_y (self f).
Proof.
  destruct f as [[[ex ey sz col] hx hy sp sx sy t0 st] g c].
  cbn [self game Thief_state]. intros ->.
  unfold_thief; unfold x, y; run_method; repeat split.
Qed.

(** C8, as the code has it.  In move_home and place_home the update writes
    the thief's position into the home before the thief moves: after the
    tick, the home is where the thief stood at the start of the tick.  In
    move_home the thief itself has by then gone on by its velocity, so the
    home trails it by one step. *)
Theorem ThiefEnemy_home_follows_thief (f : Frame ThiefEnemy) :
  Thief_state (self f) = MOVE_HOME \/ Thief_state (self f) = PLACE_HOME ->
  let f' := frame_of (ThiefEnemy_update f) in
  (Home_x (home (game f')) = x (self f) /\
   Home_y (home (game f')) = y (self f)) /\
  (Thief_state (self f) = MOVE_HOME ->
   x (self f') = Home_x (home (game f')) + Thief_speed_x (self f) /\
   y (self f') = Home_y (home (game f')) + Thief_speed_y (self f)).
Proof.
  intros Hst f'. unfold f'.
  rewrite (ThiefEnemy_update_carrying f Hst). cbn [Home_x Home_y].
  split; [split; reflexivity |].
  intros Hmove. destruct (ThiefEnemy_update_move_home f Hmove) as (_ & Hx & Hy).
  split; assumption.
Qed.

Lemma ThiefEnemy_home_follows_thief_witness :
  Home_x (home (game (frame_of (ThiefEnemy_update thief_carrying)))) = 100.
Proof.
  exact (proj1 (proj1 (ThiefEnemy_home_follows_thief thief_carrying
                         (or_introl eq_refl)))).
Defined.

(** C8, as the spec states it, fails: a thief in move_home at (100, 100)
    with the velocity (4, 4) ends its update at (104, 104), and the home is at
    (100, 100). *)
Lemma ThiefEnemy_home_trails_thief :
  let f' := frame_of (ThiefEnemy_update thief_carrying) in
  Thief_state (self thief_carrying) = MOVE_HOME /\
  returned (ThiefEnemy_update thief_carrying) = true /\
  Thief_state (self f') = MOVE_HOME /\
  (Home_x (home (game f')), Home_y (home (game f'))) = (100, 100) /\
  (x (self f'), y (self f')) = (104, 104) /\
  (Home_x (home (game f')), Home_y (home (game f')))
  <> (x (self f'), y (self f')).
Proof.
  cbn zeta.
  assert (Hhome : home (game (frame_of (ThiefEnemy_update thief_carrying)))
                  = mkHome 100 100 20).
  { apply (ThiefEnemy_update_carrying thief_carrying). left. reflexivity. }
  destruct (ThiefEnemy_update_move_home thief_carrying eq_refl)
    as (Hret & Hx & Hy).
  assert (Hst : Thief_state (self (frame_of (ThiefEnemy_update thief_carrying)))
                = MOVE_HOME).
  { unfold thief_carrying. unfold_thief. unfold x, y. run_method;
      reflect_tests; try reflexivity; lra. }
  rewrite Hhome, Hx, Hy. cbn.
  repeat split; try assumption.
  - f_equal; lra.
  - intros Heq. injection Heq as H1 H2. lra.
Qed.

(** ** The elastic bounce *)

Lemma RandomWalkEnemy_update_bounce (f : Frame RandomWalkEnemy) :
  let e := self f in
  let r := RandomWalkEnemy_update f in
  let e' := self (frame_of r) in
  let width := winfo_width (canvas (game f)) in
  let height := winfo_height (canvas (game f)) in
  returned r = true /\
  (x e' = x e + RandomWalk_speed_x e /\ y e' = y e + RandomWalk_speed_y e) /\
  ((x e' < 0 \/ x e' > width ->
    RandomWalk_speed_x e' = - RandomWalk_speed_x e) /\
   (~ (x e' < 0 \/ x e' > width) ->
    RandomWalk_speed_x e' = RandomWalk_speed_x e)) /\
  ((y e' < 0 \/ y e' > height ->
    RandomWalk_speed_y e' = - RandomWalk_speed_y e) /\
   (~ (y e' < 0 \/ y e' > height) ->
    RandomWalk_speed_y e' = RandomWalk_speed_y e)).
Proof.
  destruct f as [[[ex ey sz col] sx sy] g c].
  unfold RandomWalkEnemy_update, x, y. run_method; reflect_tests;
    repeat split; intros; try reflexivity; lra.
Qed.

Lemma ThiefEnemy_move_random_bounce (f : Frame ThiefEnemy) :
  IZR (clock f 0%nat - Thief_start_time (self f)) / 1e9 <= 6.5 ->
  let e := self f in
  let r := ThiefEnemy_move_random f in
  let e' := self (frame_of r) in
  let width := winfo_width (canvas (game f)) in
  let height := winfo_height (canvas (game f)) in
  returned r = true /\
  (x e' = x e + Thief_speed_x e /\ y e' = y e + Thief_speed_y e) /\
  ((x e' < 0 \/ x e' > width -> Thief_speed_x e' = - Thief_speed_x e) /\
   (~ (x e' < 0 \/ x e' > width) -> Thief_speed_x e' = Thief_speed_x e)) /\
  ((y e' < 0 \/ y e' > height -> Thief_speed_y e' = - Thief_speed_y e) /\
   (~ (y e' < 0 \/ y e' > height) -> Thief_speed_y e' = Thief_speed_y e)).
Proof.
  destruct f as [[[ex ey sz col] hx hy sp sx sy t0 st] g c].
  cbn [self game clock Thief_start_time]. intros Hclock.
  unfold_thief; unfold x, y. run_method; reflect_tests;
    repeat split; intros; try reflexivity; lra.
Qed.

Lemma Rabs_flip_or_keep (v v' : R) (P : Prop) :
  (P -> v' = - v) -> (~ P -> v' = v) -> P \/ ~ P -> Rabs v' = Rabs v.
Proof.
  intros Hflip Hkeep [HP | HP].
  - rewrite (Hflip HP). apply Rabs_Ropp.
  - rewrite (Hkeep HP). reflexivity.
Qed.

Lemma outside_dec (v extent : R) :
  (v < 0 \/ v > extent) \/ ~ (v < 0 \/ v > extent).
Proof.
  destruct (Rlt_dec v 0); [left; left; assumption |].
  destruct (Rlt_dec extent v); [left; right; lra | right; lra].
Qed.

(** C9. [RandomWalkEnemy.update], and [ThiefEnemy.move_random] in a tick
    whose timer has not run out, add the velocity to the position and then,
    on each axis, negate the velocity if the new coordinate is below 0 or
    above the extent of the canvas on that axis and leave it as it is
    otherwise; either way its absolute value is the same as before. *)
Theorem elastic_bounce_flips_velocity :
  (forall f : Frame RandomWalkEnemy,
     let e := self f in
     let r := RandomWalkEnemy_update f in
     let e' := self (frame_of r) in
     let width := winfo_width (canvas (game f)) in
     let height := winfo_height (canvas (game f)) in
     returned r = true /\
     (x e' = x e + RandomWalk_speed_x e /\ y e' = y e + RandomWalk_speed_y e) /\
     ((x e' < 0 \/ x e' > width ->
       RandomWalk_speed_x e' = - RandomWalk_speed_x e) /\
      (~ (x e' < 0 \/ x e' > width) ->
       RandomWalk_speed_x e' = RandomWalk_speed_x e)) /\
     ((y e' < 0 \/ y e' > height ->
       RandomWalk_speed_y e' = - RandomWalk_speed_y e) /\
      (~ (y e' < 0 \/ y e' > height) ->
       RandomWalk_speed_y e' = RandomWalk_speed_y e)) /\
     Rabs (RandomWalk_speed_x e') = Rabs (RandomWalk_speed_x e) /\
     Rabs (RandomWalk_speed_y e') = Rabs (RandomWalk_speed_y e))
  /\
  (forall f : Frame ThiefEnemy,
     IZR (clock f 0%nat - Thief_start_time (self f)) / 1e9 <= 6.5 ->
     let e := self f in
     let r := ThiefEnemy_move_random f in
     let e' := self (frame_of r) in
     let width := winfo_width (canvas (game f)) in
     let height := winfo_height (canvas (game f)) in
     returned r = true /\
     (x e' = x e + Thief_speed_x e /\ y e' = y e + Thief_speed_y e) /\
     ((x e' < 0 \/ x e' > width -> Thief_speed_x e' = - Thief_speed_x e) /\
      (~ (x e' < 0 \/ x e' > width) -> Thief_speed_x e' = Thief_speed_x e)) /\
     ((y e' < 0 \/ y e' > height -> Thief_speed_y e' = - Thief_speed_y e) /\
      (~ (y e' < 0 \/ y e' > height) -> Thief_speed_y e' = Thief_speed_y e)) /\
     Rabs (Thief_speed_x e') = Rabs (Thief_speed_x e) /\
     Rabs (Thief_speed_y e') = Rabs (Thief_speed_y e)).
Proof.
  split.
  - intros f e r e' width height.
    destruct (RandomWalkEnemy_update_bounce f)
      as (Hret & Hpos & [Hxf Hxk] & [Hyf Hyk]).
    fold e r e' width height in Hret, Hpos, Hxf, Hxk, Hyf, Hyk.
    repeat split; try assumption; try apply Hpos.
    + exact (Rabs_flip_or_keep _ _ _ Hxf Hxk (outside_dec _ _)).
    + exact (Rabs_flip_or_keep _ _ _ Hyf Hyk (outside_dec _ _)).
  - intros f Hclock e r e' width height.
    destruct (ThiefEnemy_move_random_bounce f Hclock)
      as (Hret & Hpos & [Hxf Hxk] & [Hyf Hyk]).
    fold e r e' width height in Hret, Hpos, Hxf, Hxk, Hyf, Hyk.
    repeat split; try assumption; try apply Hpos.
    + exact (Rabs_flip_or_keep _ _ _ Hxf Hxk (outside_dec _ _)).
    + exact (Rabs_flip_or_keep _ _ _ Hyf Hyk (outside_dec _ _)).
Qed.

Lemma thief_wandering_clock :
  IZR (clock thief_wandering 0%nat - Thief_start_time (self thief_wandering))
  / 1e9 <= 6.5.
Proof. cbn. lra. Qed.

Lemma elastic_bounce_flips_velocity_witness :
  returned (ThiefEnemy_move_random thief_wandering) = true.
Proof.
  exact (proj1 (proj2 elastic_bounce_flips_velocity thief_wandering
                      thief_wandering_clock)).
Defined.

(** ** The thief's record of the home *)

(** No update writes [home_x] or [home_y]. *)
Lemma ThiefEnemy_update_snapshot (f : Frame ThiefEnemy) :
  Thief_home_x (self (frame_of (ThiefEnemy_update f))) = Thief_home_x (self f)
  /\
  Thief_home_y (self (frame_of (ThiefEnemy_update f))) = Thief_home_y (self f).
Proof.
  destruct f as [[[ex ey sz col] hx hy sp sx sy t0 st] g c].
  destruct st; unfold_thief; unfold x, y; run_method; split; reflexivity.
Qed.

(** In place_home the thief ends the same whatever the home's position. *)
Lemma ThiefEnemy_update_place_home_blind (f : Frame ThiefEnemy) (h : Home) :
  Thief_state (self f) = PLACE_HOME ->
  let f_h := mkFrame (self f) (set_home (game f) h) (clock f) in
  self (frame_of (ThiefEnemy_update f_h))
  = self (frame_of (ThiefEnemy_update f))
  /\ returned (ThiefEnemy_update f_h) = returned (ThiefEnemy_update f).
Proof.
  destruct f as [[[ex ey sz col] hx hy sp sx sy t0 st] g c].
  cbn [self game clock Thief_state]. intros ->.
  unfold_thief; unfold hits_player, x, y, size.
  unfold_method. cbn.
  repeat (case_test; cbn); split; reflexivity.
Qed.

(** The step of place_home, taken towards the recorded point. *)
Lemma ThiefEnemy_update_place_home (f : Frame ThiefEnemy) :
  let e := self f in
  let dis_x := Thief_home_x e - x e in
  let dis_y := Thief_home_y e - y e in
  let d := sqrt (dis_x ^ 2 + dis_y ^ 2) in
  let r := ThiefEnemy_update f in
  let e' := self (frame_of r) in
  Thief_state e = PLACE_HOME ->
  d <> 0 ->
  returned r = true /\
  x e' = x e + dis_x / d * Thief_speed e /\
  y e' = y e + dis_y / d * Thief_speed e /\
  (Thief_state e' = MOVE_RANDOM <->
   (Thief_home_x e - 3 <= x e' <= Thief_home_x e + 3) /\
   (Thief_home_y e - 3 <= y e' <= Thief_home_y e + 3)).
Proof.
  destruct f as [[[ex ey sz col] hx hy sp sx sy t0 st] g c].
  cbn zeta. cbn [self game clock Thief_state]. intros -> Hd.
  unfold x, y in Hd. cbn in Hd.
  unfold_thief; unfold x, y; run_method; reflect_tests;
    try (exfalso; apply Hd; assumption);
    (split; [reflexivity | split; [reflexivity | split; [reflexivity |]]]);
    (split; [intros; first [discriminate | tauto] | try reflexivity]).
  all: match goal with
       | H : (_ <=? _ <=? _) && (_ <=? _ <=? _) = false |- _ =>
           intros [Hx Hy]; apply between_le_iff in Hx;
           apply between_le_iff in Hy; rewrite Hx, Hy in H; discriminate
       end.
Qed.

Lemma component_bound (a b d s : R) :
  d * d = a ^ 2 + b ^ 2 -> d <> 0 -> Rabs (a / d * s) <= Rabs s.
Proof.
  intros Hsq Hd. rewrite Rabs_mult.
  assert (Hq : Rabs (a / d) <= 1).
  { assert (Hdd : 0 < d * d) by nra.
    assert (Hqq : a / d * (a / d) * (d * d) = a * a) by (field; exact Hd).
    assert (Hle : a / d * (a / d) <= 1) by nra.
    unfold Rabs. destruct (Rcase_abs (a / d)); nra. }
  pose proof (Rabs_pos s). nra.
Qed.

(** On its target the thief in place_home raises and stays in place_home. *)
Lemma ThiefEnemy_update_place_home_stuck (f : Frame ThiefEnemy) :
  let e := self f in
  Thief_state e = PLACE_HOME ->
  sqrt ((Thief_home_x e - x e) ^ 2 + (Thief_home_y e - y e) ^ 2) = 0 ->
  Thief_state (self (frame_of (ThiefEnemy_update f))) = PLACE_HOME.
Proof.
  destruct f as [[[ex ey sz col] hx hy sp sx sy t0 st] g c].
  cbn zeta. cbn [self game clock Thief_state]. intros -> Hd.
  unfold x, y in Hd. cbn in Hd.
  unfold_thief; unfold x, y; run_method; try reflexivity;
    exfalso; match goal with H : _ <> 0 |- _ => apply H; assumption end.
Qed.

Lemma Rabs_le_iff (a b : R) : Rabs a <= b <-> - b <= a <= b.
Proof. unfold Rabs. destruct (Rcase_abs a); lra. Qed.

(** C10, as the code has it.  A thief records the home's position when it
    is constructed, and no update of the thief writes the record afterwards.
    In place_home the thief reads that record and not the home: whatever the
    home's current position, the thief steps by its speed towards the
    recorded point and goes back to move_random exactly when the step has
    brought it within 3 units of the recorded point on both axes.  The home
    is written with the thief's position before each step, so when the thief
    arrives the home is back within [3 + |speed|] of the recorded point on
    both axes, and not on the recorded point itself. *)
Theorem ThiefEnemy_home_snapshot :
  (forall (x0 y0 : R) (g : TurtleAdventureGame) (sz : R) (col : string)
          (now : Z),
     Thief_home_x (ThiefEnemy_init x0 y0 g sz col now) = Home_x (home g) /\
     Thief_home_y (ThiefEnemy_init x0 y0 g sz col now) = Home_y (home g))
  /\
  (forall f : Frame ThiefEnemy,
     Thief_home_x (self (frame_of (ThiefEnemy_update f)))
     = Thief_home_x (self f) /\
     Thief_home_y (self (frame_of (ThiefEnemy_update f)))
     = Thief_home_y (self f))
  /\
  (forall (f : Frame ThiefEnemy) (h : Home),
     Thief_state (self f) = PLACE_HOME ->
     let f_h := mkFrame (self f) (set_home (game f) h) (clock f) in
     self (frame_of (ThiefEnemy_update f_h))
     = self (frame_of (ThiefEnemy_update f)) /\
     returned (ThiefEnemy_update f_h) = returned (ThiefEnemy_update f))
  /\
  (forall f : Frame ThiefEnemy,
     let e := self f in
     let dis_x := Thief_home_x e - x e in
     let dis_y := Thief_home_y e - y e in
     let d := sqrt (dis_x ^ 2 + dis_y ^ 2) in
     let r := ThiefEnemy_update f in
     let e' := self (frame_of r) in
     Thief_state e = PLACE_HOME ->
     d <> 0 ->
     returned r = true /\
     x e' = x e + dis_x / d * Thief_speed e /\
     y e' = y e + dis_y / d * Thief_speed e /\
     (Thief_state e' = MOVE_RANDOM <->
      (Thief_home_x e - 3 <= x e' <= Thief_home_x e + 3) /\
      (Thief_home_y e - 3 <= y e' <= Thief_home_y e + 3)))
  /\
  (forall f : Frame ThiefEnemy,
     let e := self f in
     let f' := frame_of (ThiefEnemy_update f) in
     Thief_state e = PLACE_HOME ->
     Thief_state (self f') = MOVE_RANDOM ->
     Rabs (Home_x (home (game f')) - Thief_home_x e) <= 3 + Rabs (Thief_speed e)
     /\
     Rabs (Home_y (home (game f')) - Thief_home_y e) <= 3 + Rabs (Thief_speed e)
     /\
     (Home_x (home (game f')), Home_y (home (game f')))
     <> (Thief_home_x e, Thief_home_y e)).
Proof.
  split; [| split; [| split; [| split]]].
  - intros. split; reflexivity.
  - exact ThiefEnemy_update_snapshot.
  - exact ThiefEnemy_update_place_home_blind.
  - exact ThiefEnemy_update_place_home.
  - intros f e f' Hst Hback.
    set (dis_x := Thief_home_x e - x e).
    set (dis_y := Thief_home_y e - y e).
    destruct (Req_dec_T (sqrt (dis_x ^ 2 + dis_y ^ 2)) 0) as [Hd | Hd].
    { pose proof (ThiefEnemy_update_place_home_stuck f Hst Hd) as Hstuck.
      fold f' in Hstuck. rewrite Hstuck in Hback. discriminate. }
    destruct (ThiefEnemy_update_place_home f Hst Hd)
      as (_ & Hx & Hy & Harrive).
    fold e f' dis_x dis_y in Hx, Hy, Harrive.
    apply Harrive in Hback. destruct Hback as [Hbx Hby].
    unfold f'. rewrite (ThiefEnemy_update_carrying f (or_intror Hst)).
    fold e. cbn [Home_x Home_y].
    pose proof (sqrt_sum_squares_sq dis_x dis_y) as Hsq.
    set (d := sqrt (dis_x ^ 2 + dis_y ^ 2)) in *.
    pose proof (component_bound dis_x dis_y d (Thief_speed e) Hsq Hd) as Bx.
    assert (Hsq' : d * d = dis_y ^ 2 + dis_x ^ 2) by lra.
    pose proof (component_bound dis_y dis_x d (Thief_speed e) Hsq' Hd) as By.
    apply Rabs_le_iff in Bx, By.
    split; [| split]; try (apply Rabs_le_iff; lra).
    intros Heq. injection Heq as Hex Hey. apply Hd. unfold d.
    apply sqrt_sum_squares_at_zero; unfold dis_x, dis_y; lra.
Qed.

Lemma thief_returning_distance :
  sqrt ((Thief_home_x (self thief_returning) - x (self thief_returning)) ^ 2
        + (Thief_home_y (self thief_returning) - y (self thief_returning)) ^ 2)
  = 5.
Proof.
  change (sqrt ((700 - 695) ^ 2 + (250 - 250) ^ 2) = 5).
  replace (700 - 695) with 5 by lra. apply sqrt_axis; lra.
Qed.

Lemma thief_returning_arrives :
  Thief_state (self (frame_of (ThiefEnemy_update thief_returning)))
  = MOVE_RANDOM.
Proof.
  assert (Hd : sqrt ((Thief_home_x (self thief_returning)
                      - x (self thief_returning)) ^ 2
                     + (Thief_home_y (self thief_returning)
                        - y (self thief_returning)) ^ 2) <> 0).
  { rewrite thief_returning_distance. lra. }
  destruct (ThiefEnemy_update_place_home thief_returning eq_refl Hd)
    as (_ & Hx & Hy & Harrive).
  apply Harrive. rewrite Hx, Hy, thief_returning_distance.
  change (700 - 3 <= 695 + (700 - 695) / 5 * 4 <= 700 + 3 /\
          250 - 3 <= 250 + (250 - 250) / 5 * 4 <= 250 + 3).
  lra.
Qed.

Lemma ThiefEnemy_home_snapshot_witness :
  Rabs (Home_x (home (game (frame_of (ThiefEnemy_update thief_returning))))
        - 700) <= 3 + Rabs 4.
Proof.
  exact (proj1 (proj2 (proj2 (proj2 (proj2 ThiefEnemy_home_snapshot)))
                      thief_returning eq_refl thief_returning_arrives)).
Defined.

(** C10, as the spec states it, fails in its last part: a thief that recorded
    the home at (700, 250) and stands at (695, 250) in place_home arrives in
    this update (it steps to (699, 250) and goes back to move_random), and
    leaves the home at (695, 250), not where it was when the thief was
    spawned. *)
Lemma ThiefEnemy_home_not_put_back :
  let f' := frame_of (ThiefEnemy_update thief_returning) in
  Thief_state (self thief_returning) = PLACE_HOME /\
  (Thief_home_x (self thief_returning), Thief_home_y (self thief_returning))
  = (700, 250) /\
  Thief_state (self f') = MOVE_RANDOM /\
  (Home_x (home (game f')), Home_y (home (game f'))) = (695, 250) /\
  (Home_x (home (game f')), Home_y (home (game f')))
  <> (Thief_home_x (self thief_returning), Thief_home_y (self thief_returning)).
Proof.
  cbn zeta.
  rewrite (ThiefEnemy_update_carrying thief_returning (or_intror eq_refl)).
  split; [reflexivity |]. split; [reflexivity |].
  split; [exact thief_returning_arrives |].
  split; [reflexivity |].
  cbn. intros Heq. injection Heq as Hx. lra.
Qed.

(* ===================================================================== *)
(** * Further properties of the code *)
(* ===================================================================== *)

(** ** Player.update, tick by tick *)

(** What [Player.update] never writes: the home, the player's speed, the
    size of the canvas and where the waypoint is. *)
Lemma Player_update_frame (g : TurtleAdventureGame) :
  home (Player_update g) = home g /\
  Player_speed (player (Player_update g)) = Player_speed (player g) /\
  Waypoint_x (waypoint (Player_update g)) = Waypoint_x (waypoint g) /\
  Waypoint_y (waypoint (Player_update g)) = Waypoint_y (waypoint g).
Proof.
  unfold Player_update.
  destruct (Home_contains _ _ _); cbn;
    destruct (Waypoint_is_active (waypoint g)); cbn;
    try match goal with |- context [if ?c then _ else _] => destruct c end;
    repeat split.
Qed.

Lemma Player_update_banner (g : TurtleAdventureGame) :
  let at_home :=
    Home_contains (home g) (Player_x (player g)) (Player_y (player g)) in
  texts (canvas (Player_update g))
  = texts (canvas g) ++ (if at_home then [win_banner g] else []) /\
  is_started (Player_update g) = (if at_home then false else is_started g).
Proof.
  unfold Player_update.
  destruct (Home_contains _ _ _); cbn;
    destruct (Waypoint_is_active (waypoint g)); cbn;
    try match goal with |- context [if ?c then _ else _] => destruct c end;
    cbn; rewrite ?app_nil_r; split; reflexivity.
Qed.

(** The player moves in a tick exactly when the waypoint is active: with an
    inactive waypoint [Player.update] leaves the player and the waypoint as
    they are; with an active one a player of non-zero speed ends the tick
    somewhere else.  Either way the update never writes the home, the
    player's speed or the waypoint's coordinates. *)
Theorem Player_moves_iff_waypoint_active (g : TurtleAdventureGame) :
  let g' := Player_update g in
  (Waypoint_is_active (waypoint g) = false ->
   player g' = player g /\ waypoint g' = waypoint g) /\
  (Waypoint_is_active (waypoint g) = true ->
   Player_speed (player g) <> 0 ->
   position (Player_turtle (player g')) <> position (Player_turtle (player g)))
  /\
  home g' = home g /\
  Player_speed (player g') = Player_speed (player g) /\
  (Waypoint_x (waypoint g'), Waypoint_y (waypoint g'))
  = (Waypoint_x (waypoint g), Waypoint_y (waypoint g)).
Proof.
  intros g'. unfold g'.
  destruct (Player_update_frame g) as (Hh & Hs & Hx & Hy).
  repeat split; try assumption.
  - rewrite (Player_update_inactive g H). destruct (Home_contains _ _ _);
      reflexivity.
  - rewrite (Player_update_inactive g H). destruct (Home_contains _ _ _);
      reflexivity.
  - intros Hw Hs0. rewrite (Player_update_turtle g Hw).
    apply forward_moves; [apply towards_unit | exact Hs0].
  - rewrite Hx, Hy. reflexivity.
Qed.

Lemma Player_moves_iff_waypoint_active_witness :
  position (Player_turtle (player (Player_update (start_game 300))))
  <> position (Player_turtle (player (start_game 300))).
Proof.
  refine (proj1 (proj2 (Player_moves_iff_waypoint_active (start_game 300)))
                eq_refl _).
  cbn. lra.
Defined.

(** [Player.update] draws the "You Win" banner and halts the tick loop
    exactly when the player is inside its home at the start of the tick; in
    every other tick it leaves the text items and the running flag as they
    are. *)
Theorem Player_update_wins_iff_at_home (g : TurtleAdventureGame) :
  let at_home :=
    Home_contains (home g) (Player_x (player g)) (Player_y (player g)) in
  let g' := Player_update g in
  texts (canvas g')
  = texts (canvas g) ++ (if at_home then [win_banner g] else []) /\
  is_started g' = (if at_home then false else is_started g) /\
  (texts (canvas g') <> texts (canvas g) <-> at_home = true).
Proof.
  intros at_home g'. destruct (Player_update_banner g) as [Ht Hs].
  fold at_home g' in Ht, Hs. split; [exact Ht | split; [exact Hs |]].
  rewrite Ht. destruct at_home.
  - split; [reflexivity |]. intros _ Heq.
    apply (f_equal (@List.length CanvasText)) in Heq.
    rewrite length_app in Heq. cbn in Heq.
    rewrite <- plus_n_Sm, <- plus_n_O in Heq.
    exact (n_Sn _ (eq_sym Heq)).
  - rewrite app_nil_r.
    split; [intros Hne; elim Hne; reflexivity | discriminate].
Qed.

(** ** ChasingEnemy.update away from the player *)

Lemma Rabs_le_norm (a b : R) : Rabs a <= sqrt (a ^ 2 + b ^ 2).
Proof.
  rewrite <- sqrt_Rsqr_abs. apply sqrt_le_1_alt. unfold Rsqr. nra.
Qed.

(** The step of a chasing enemy is the step of a turtle that stands where
    the enemy stands and heads for the player. *)
Lemma ChasingEnemy_update_step (f : Frame ChasingEnemy) :
  let e := self f in
  let p := player (game f) in
  let t := mkRawTurtle (x e, y e) (1, 0) in
  let t' := forward (setheading t (towards t (Player_x p) (Player_y p)))
                    (Chasing_speed e) in
  let r := ChasingEnemy_update f in
  let e' := self (frame_of r) in
  distance t (Player_x p) (Player_y p) <> 0 ->
  returned r = true /\
  (x e', y e') = position t' /\
  Chasing_speed e' = Chasing_speed e /\
  size e' = size e /\
  game (frame_of r)
  = (if hits_player e' (game f) then game_over_lose (game f) else game f).
Proof.
  destruct f as [[[ex ey sz col] sp] g c].
  cbn zeta. cbn [self game]. unfold towards, distance, xcor, ycor.
  cbn [position fst snd]. unfold x, y. cbn [super ChasingEnemy_EnemyClass
    Chasing_super Enemy_x Enemy_y].
  intros Hd.
  destruct (Req_dec_T _ 0) as [H0 | _]; [contradiction |].
  unfold ChasingEnemy_update. unfold_method.
  unfold hits_player, x, y, size. cbn.
  destruct (Req_dec_T _ 0) as [H0 | _]; [exfalso; apply Hd; exact H0 |].
  cbn. repeat (case_test; cbn); repeat split; congruence.
Qed.

(** Away from the player, [ChasingEnemy.update] completes and takes the enemy
    one step of length [|speed|] straight towards the player: from the
    distance [d > 0] it ends at the distance [|d - speed|].  The update
    changes the game only by declaring it lost, which it does exactly when
    the enemy, after its step, hits the player. *)
Theorem ChasingEnemy_closes_in (f : Frame ChasingEnemy) :
  let e := self f in
  let p := player (game f) in
  let d := sqrt ((Player_x p - x e) ^ 2 + (Player_y p - y e) ^ 2) in
  let r := ChasingEnemy_update f in
  let e' := self (frame_of r) in
  d <> 0 ->
  returned r = true /\
  sqrt ((x e' - x e) ^ 2 + (y e' - y e) ^ 2) = Rabs (Chasing_speed e) /\
  sqrt ((Player_x p - x e') ^ 2 + (Player_y p - y e') ^ 2)
  = Rabs (d - Chasing_speed e) /\
  game (frame_of r)
  = (if hits_player e' (game f) then game_over_lose (game f) else game f).
Proof.
  intros e p d r e' Hd.
  destruct (ChasingEnemy_update_step f Hd) as (Hret & Hpos & _ & _ & Hgame).
  fold e p r e' in Hret, Hpos, Hgame.
  set (t := mkRawTurtle (x e, y e) (1, 0)) in *.
  set (h := towards t (Player_x p) (Player_y p)) in *.
  assert (Hx : x e' = xcor (forward (setheading t h) (Chasing_speed e)))
    by (unfold xcor; rewrite <- Hpos; reflexivity).
  assert (Hy : y e' = ycor (forward (setheading t h) (Chasing_speed e)))
    by (unfold ycor; rewrite <- Hpos; reflexivity).
  split; [exact Hret | split; [| split; [| exact Hgame]]].
  - rewrite Hx, Hy.
    exact (forward_distance t h (Chasing_speed e)
             (towards_unit t (Player_x p) (Player_y p))).
  - rewrite Hx, Hy.
    exact (towards_forward_distance t (Player_x p) (Player_y p)
             (Chasing_speed e) Hd).
Qed.

(** A chasing enemy that stands away from the player but so close that its
    step leaves it less than [size/2] from the player hits the player in this
    update: the tick loop is halted and the "You Lose" banner drawn.  In
    particular an enemy spawned within [size/2] of the player, and not on
    it, ends the game in its first update when its speed is below [size]. *)
Theorem ChasingEnemy_catches_near_player (f : Frame ChasingEnemy) :
  let e := self f in
  let p := player (game f) in
  let d := sqrt ((Player_x p - x e) ^ 2 + (Player_y p - y e) ^ 2) in
  let r := ChasingEnemy_update f in
  d <> 0 ->
  Rabs (d - Chasing_speed e) < size e / 2 ->
  returned r = true /\
  hits_player (self (frame_of r)) (game f) = true /\
  game (frame_of r) = game_over_lose (game f) /\
  is_started (game (frame_of r)) = false /\
  texts (canvas (game (frame_of r)))
  = texts (canvas (game f)) ++ [lose_banner (game f)].
Proof.
  intros e p d r Hd Hnear.
  destruct (ChasingEnemy_update_step f Hd) as (Hret & Hpos & _ & Hsz & Hgame).
  fold e p r in Hret, Hpos, Hsz, Hgame.
  set (e' := self (frame_of r)) in *.
  set (t := mkRawTurtle (x e, y e) (1, 0)) in *.
  set (h := towards t (Player_x p) (Player_y p)) in *.
  assert (Hx : x e' = xcor (forward (setheading t h) (Chasing_speed e)))
    by (unfold xcor; rewrite <- Hpos; reflexivity).
  assert (Hy : y e' = ycor (forward (setheading t h) (Chasing_speed e)))
    by (unfold ycor; rewrite <- Hpos; reflexivity).
  assert (Hafter : sqrt ((Player_x p - x e') ^ 2 + (Player_y p - y e') ^ 2)
                   = Rabs (d - Chasing_speed e)).
  { rewrite Hx, Hy.
    exact (towards_forward_distance t (Player_x p) (Player_y p)
             (Chasing_speed e) Hd). }
  assert (Hhit : hits_player e' (game f) = true).
  { unfold hits_player. fold p. rewrite Hsz.
    pose proof (Rabs_le_norm (Player_x p - x e') (Player_y p - y e')) as Bx.
    pose proof (Rabs_le_norm (Player_y p - y e') (Player_x p - x e')) as By.
    replace ((Player_y p - y e') ^ 2 + (Player_x p - x e') ^ 2)
      with ((Player_x p - x e') ^ 2 + (Player_y p - y e') ^ 2) in By by ring.
    rewrite Hafter in Bx, By.
    apply Rabs_le_iff in Bx, By.
    apply andb_true_iff. split; apply between_lt_iff; lra. }
  rewrite Hhit in Hgame.
  split; [exact Hret | split; [exact Hhit | split; [exact Hgame |]]].
  rewrite Hgame. split; reflexivity.
Qed.

Lemma chaser_near_player_distance :
  sqrt ((Player_x (player (game chaser_near_player))
         - x (self chaser_near_player)) ^ 2
        + (Player_y (player (game chaser_near_player))
           - y (self chaser_near_player)) ^ 2) = 6.
Proof.
  change (sqrt ((50 - 44) ^ 2 + (250 - 250) ^ 2) = 6).
  replace (50 - 44) with 6 by lra. apply sqrt_axis; lra.
Qed.

Lemma ChasingEnemy_closes_in_witness :
  returned (ChasingEnemy_update chaser_near_player) = true.
Proof.
  refine (proj1 (ChasingEnemy_closes_in chaser_near_player _)).
  rewrite chaser_near_player_distance. lra.
Defined.

Lemma ChasingEnemy_catches_near_player_witness :
  is_started (game (frame_of (ChasingEnemy_update chaser_near_player)))
  = false.
Proof.
  refine (proj1 (proj2 (proj2 (proj2
            (ChasingEnemy_catches_near_player chaser_near_player _ _))))).
  - rewrite chaser_near_player_distance. lra.
  - rewrite chaser_near_player_distance.
    change (Rabs (6 - 2) < 20 / 2). apply Rabs_def1; lra.
Defined.

(** ** What an enemy's update does to the game *)

(** [RandomWalkEnemy.update] and [FencingEnemy.update] always complete, and
    they change the game in one way only: when the enemy, after its move,
    hits the player, the game is declared lost; otherwise the game is left
    exactly as it was.  Neither reads the clock. *)
Theorem enemy_update_only_declares_loss :
  (forall f : Frame RandomWalkEnemy,
     let r := RandomWalkEnemy_update f in
     returned r = true /\
     game (frame_of r)
     = (if hits_player (self (frame_of r)) (game f)
        then game_over_lose (game f) else game f) /\
     clock (frame_of r) = clock f)
  /\
  (forall f : Frame FencingEnemy,
     let r := FencingEnemy_update f in
     returned r = true /\
     game (frame_of r)
     = (if hits_player (self (frame_of r)) (game f)
        then game_over_lose (game f) else game f) /\
     clock (frame_of r) = clock f).
Proof.
  split.
  - intros [[[ex ey sz col] sx sy] g c].
    unfold RandomWalkEnemy_update. unfold_method.
    unfold hits_player, x, y, size. cbn.
    repeat (case_test; cbn); repeat split; congruence.
  - intros [[[ex ey sz col] sp xl xr yu yd st] g c].
    unfold FencingEnemy_update, FencingEnemy_call_state.
    destruct st;
      unfold FencingEnemy_move_down, FencingEnemy_move_right,
        FencingEnemy_move_up, FencingEnemy_move_left;
      unfold_method; unfold hits_player, x, y, size; cbn;
      repeat (case_test; cbn); repeat split; congruence.
Qed.

(** ** The thief's state machine *)

Lemma Thief_next_neq (s : ThiefState) : Thief_next s <> s.
Proof. destruct s; discriminate. Qed.

(** What an update of a thief leaves alone, and where its state can go. *)
Lemma ThiefEnemy_update_frame (f : Frame ThiefEnemy) :
  let e := self f in
  let f' := frame_of (ThiefEnemy_update f) in
  waypoint (game f') = waypoint (game f) /\
  player (game f') = player (game f) /\
  Home_size (home (game f')) = Home_size (home (game f)) /\
  (Thief_state e = MOVE_RANDOM \/ Thief_state e = FIND_HOME ->
   home (game f') = home (game f)) /\
  (Thief_state (self f') = Thief_state e \/
   Thief_state (self f') = Thief_next (Thief_state e)) /\
  size (self f') = size e.
Proof.
  destruct f as [[[ex ey sz col] hx hy sp sx sy t0 st] g c].
  destruct st; unfold_thief; unfold x, y, size; run_method;
    repeat split; intros; try reflexivity; try tauto;
    match goal with
    | H : _ \/ _ |- _ => destruct H; discriminate
    end.
Qed.

(** An update of a thief never writes the player or the waypoint, and writes
    the home only in move_home and place_home: in move_random and find_home
    the home is left as it is.  Whatever the update does (also when it
    raises), the thief's state is afterwards either the same or the next one
    in the order move_random, find_home, move_home, place_home, move_random;
    so over any run of updates the state only advances along that cycle. *)
Theorem ThiefEnemy_cyclic_order :
  (forall (x0 y0 : R) (g : TurtleAdventureGame) (sz : R) (col : string)
          (now : Z),
     Thief_state (ThiefEnemy_init x0 y0 g sz col now) = MOVE_RANDOM)
  /\
  (forall f : Frame ThiefEnemy,
     let e := self f in
     let f' := frame_of (ThiefEnemy_update f) in
     waypoint (game f') = waypoint (game f) /\
     player (game f') = player (game f) /\
     (Thief_state e = MOVE_RANDOM \/ Thief_state e = FIND_HOME ->
      home (game f') = home (game f)) /\
     (Thief_state (self f') = Thief_state e \/
      Thief_state (self f') = Thief_next (Thief_state e)) /\
     Thief_next (Thief_state (self f')) <> Thief_state e)
  /\
  (forall e e' : ThiefEnemy,
     Thief_later e e' ->
     exists k : nat, Thief_state e' = Nat.iter k Thief_next (Thief_state e)).
Proof.
  split; [reflexivity | split].
  - intros f e f'.
    destruct (ThiefEnemy_update_frame f) as (Hw & Hp & _ & Hh & Hst & _).
    fold e f' in Hw, Hp, Hh, Hst.
    repeat split; try assumption.
    destruct Hst as [-> | ->]; [apply Thief_next_neq |].
    destruct (Thief_state e); discriminate.
  - intros e e' Hlater. induction Hlater as [| e' g c Hlater [k IH]].
    + exists 0%nat. reflexivity.
    + destruct (ThiefEnemy_update_frame (mkFrame e' g c))
        as (_ & _ & _ & _ & [Hst | Hst] & _); cbn [self] in Hst.
      * exists k. rewrite Hst. exact IH.
      * exists (S k). rewrite Hst, IH. reflexivity.
Qed.

Lemma ThiefEnemy_cyclic_order_witness :
  home (game (frame_of (ThiefEnemy_update thief_wandering)))
  = home (game thief_wandering).
Proof.
  exact (proj1 (proj2 (proj2 (proj1 (proj2 ThiefEnemy_cyclic_order)
                                     thief_wandering)))
               (or_introl eq_refl)).
Defined.

(** Closes the arithmetic left by a run of a thief's update. *)
Ltac thief_arith :=
  unfold Thief_timer in *; cbn in *; reflect_tests;
  repeat split; intros;
  try reflexivity; try discriminate; try assumption; try lra; try tauto.

Lemma ThiefEnemy_update_move_random (f : Frame ThiefEnemy) :
  let e := self f in
  let r := ThiefEnemy_update f in
  let e' := self (frame_of r) in
  Thief_state e = MOVE_RANDOM ->
  returned r = true /\
  (Thief_state e' = FIND_HOME <-> Thief_timer f > 6.5) /\
  (Thief_timer f > 6.5 ->
   Thief_speed_x e' = 4 /\ Thief_speed_y e' = 4 /\
   Thief_start_time e' = clock f 1%nat) /\
  (Thief_timer f <= 6.5 -> Thief_start_time e' = Thief_start_time e) /\
  Thief_speed e' = Thief_speed e.
Proof.
  destruct f as [[[ex ey sz col] hx hy sp sx sy t0 st] g c].
  cbn zeta. cbn [self Thief_state]. intros ->.
  unfold_thief; unfold x, y; run_method; thief_arith.
Qed.

Lemma ThiefEnemy_update_move_home_timer (f : Frame ThiefEnemy) :
  let e := self f in
  let r := ThiefEnemy_update f in
  let e' := self (frame_of r) in
  Thief_state e = MOVE_HOME ->
  returned r = true /\
  (Thief_state e' = PLACE_HOME <-> Thief_timer f > 3) /\
  (Thief_timer f > 3 ->
   Thief_speed_x e' = 2 /\ Thief_speed_y e' = 2 /\
   Thief_start_time e' = clock f 1%nat) /\
  (Thief_timer f <= 3 -> Thief_start_time e' = Thief_start_time e) /\
  Thief_speed e' = Thief_speed e.
Proof.
  destruct f as [[[ex ey sz col] hx hy sp sx sy t0 st] g c].
  cbn zeta. cbn [self Thief_state]. intros ->.
  unfold_thief; unfold x, y; run_method; thief_arith.
Qed.

Lemma ThiefEnemy_update_find_home (f : Frame ThiefEnemy) :
  let e := self f in
  let h := home (game f) in
  let dis_x := Home_x h - x e in
  let dis_y := Home_y h - y e in
  let d := sqrt (dis_x ^ 2 + dis_y ^ 2) in
  let r := ThiefEnemy_update f in
  let e' := self (frame_of r) in
  Thief_state e = FIND_HOME ->
  d <> 0 ->
  returned r = true /\
  x e' = x e + dis_x / d * Thief_speed e /\
  y e' = y e + dis_y / d * Thief_speed e /\
  (Thief_state e' = MOVE_HOME <->
   (Home_x h - 3 <= x e' <= Home_x h + 3) /\
   (Home_y h - 3 <= y e' <= Home_y h + 3)) /\
  (Thief_state e' = MOVE_HOME ->
   Thief_speed e' = 4 /\ Thief_start_time e' = clock f 0%nat) /\
  (Thief_speed_x e', Thief_speed_y e') = (Thief_speed_x e, Thief_speed_y e).
Proof.
  destruct f as [[[ex ey sz col] hx hy sp sx sy t0 st] g c].
  cbn zeta. cbn [self game clock Thief_state]. intros -> Hd.
  unfold x, y in Hd. cbn in Hd.
  unfold_thief; unfold x, y; run_method; reflect_tests;
    try (exfalso; apply Hd; assumption);
    (split; [reflexivity | split; [reflexivity | split; [reflexivity |]]]);
    (split; [| split; [intros; first [discriminate | split; reflexivity]
                      | reflexivity]]);
    (split; [intros; first [discriminate | tauto] | try reflexivity]).
  all: match goal with
       | H : (_ <=? _ <=? _) && (_ <=? _ <=? _) = false |- _ =>
           intros [Hx Hy]; apply between_le_iff in Hx;
           apply between_le_iff in Hy; rewrite Hx, Hy in H; discriminate
       end.
Qed.

(** When a thief changes its state.  From move_random it goes to find_home
    exactly in the update that reads more than 6.5 seconds on its timer, and
    then sets its velocity to (4, 4); from move_home it goes to place_home
    exactly in the update that reads more than 3 seconds, and then sets its
    velocity to (2, 2); both restart the timer at the following reading of
    the clock.  In find_home, away from the home's centre, it steps by its
    speed towards the home as it is now, and goes to move_home exactly when
    the step has brought it within 3 units of the home's centre on both
    axes, then setting its speed to 4 and restarting the timer. *)
Theorem ThiefEnemy_transitions (f : Frame ThiefEnemy) :
  let e := self f in
  let h := home (game f) in
  let r := ThiefEnemy_update f in
  let e' := self (frame_of r) in
  (Thief_state e = MOVE_RANDOM ->
   returned r = true /\
   (Thief_state e' = FIND_HOME <-> Thief_timer f > 6.5) /\
   (Thief_timer f > 6.5 ->
    Thief_speed_x e' = 4 /\ Thief_speed_y e' = 4 /\
    Thief_start_time e' = clock f 1%nat) /\
   (Thief_timer f <= 6.5 -> Thief_start_time e' = Thief_start_time e))
  /\
  (Thief_state e = MOVE_HOME ->
   returned r = true /\
   (Thief_state e' = PLACE_HOME <-> Thief_timer f > 3) /\
   (Thief_timer f > 3 ->
    Thief_speed_x e' = 2 /\ Thief_speed_y e' = 2 /\
    Thief_start_time e' = clock f 1%nat) /\
   (Thief_timer f <= 3 -> Thief_start_time e' = Thief_start_time e))
  /\
  (Thief_state e = FIND_HOME ->
   sqrt ((Home_x h - x e) ^ 2 + (Home_y h - y e) ^ 2) <> 0 ->
   returned r = true /\
   x e' = x e + (Home_x h - x e)
                / sqrt ((Home_x h - x e) ^ 2 + (Home_y h - y e) ^ 2)
                * Thief_speed e /\
   y e' = y e + (Home_y h - y e)
                / sqrt ((Home_x h - x e) ^ 2 + (Home_y h - y e) ^ 2)
                * Thief_speed e /\
   (Thief_state e' = MOVE_HOME <->
    (Home_x h - 3 <= x e' <= Home_x h + 3) /\
    (Home_y h - 3 <= y e' <= Home_y h + 3)) /\
   (Thief_state e' = MOVE_HOME ->
    Thief_speed e' = 4 /\ Thief_start_time e' = clock f 0%nat)).
Proof.
  intros e h r e'. split; [| split].
  - intros Hst.
    destruct (ThiefEnemy_update_move_random f Hst) as (H1 & H2 & H3 & H4 & _).
    repeat split; try assumption; try apply H2; try apply H3; assumption.
  - intros Hst.
    destruct (ThiefEnemy_update_move_home_timer f Hst)
      as (H1 & H2 & H3 & H4 & _).
    repeat split; try assumption; try apply H2; try apply H3; assumption.
  - intros Hst Hd.
    destruct (ThiefEnemy_update_find_home f Hst Hd)
      as (H1 & H2 & H3 & H4 & H5 & _).
    repeat split; try assumption; try apply H4; try apply H5; assumption.
Qed.

Lemma thief_wandering_timer : Thief_timer thief_wandering <= 6.5.
Proof. unfold Thief_timer. cbn. lra. Qed.

Lemma ThiefEnemy_transitions_witness :
  Thief_start_time (self (frame_of (ThiefEnemy_update thief_wandering)))
  = Thief_start_time (self thief_wandering).
Proof.
  exact (proj2 (proj2 (proj2 (proj1 (ThiefEnemy_transitions thief_wandering)
                                    eq_refl)))
               thief_wandering_timer).
Defined.

(** ** The speeds of a thief *)

Lemma ThiefEnemy_update_paced (f : Frame ThiefEnemy) :
  Thief_paced (self f) ->
  Thief_paced (self (frame_of (ThiefEnemy_update f))).
Proof.
  destruct f as [[[ex ey sz col] hx hy sp sx sy t0 st] g c].
  unfold Thief_paced. cbn [self Thief_state Thief_speed Thief_speed_x
    Thief_speed_y].
  destruct st; intros (Hsp & Hsx & Hsy);
    unfold_thief; unfold x, y; run_method;
    rewrite ?Rabs_Ropp;
    repeat split; try assumption; try (apply Rabs_pos_eq; lra).
Qed.

(** Every thief keeps the speeds of its state.  A thief starts with the
    speed 2 and a velocity of 2 on each axis, and whatever updates it goes
    through, it wanders (move_random) at 2 per axis, walks to the home
    (find_home) at the speed 2, carries the home (move_home) at 4 per axis,
    and brings it back (place_home) at the speed 4: the velocity set to 4
    when find_home begins is first used in move_home, and the speed set to 4
    when move_home begins is first used in place_home.  This holds of every
    thief [create_my_enemy] makes, which also keeps, through all its
    updates, the record of where the home was when it was made. *)
Theorem ThiefEnemy_keeps_pace :
  (forall (x0 y0 : R) (g : TurtleAdventureGame) (sz : R) (col : string)
          (now : Z),
     Thief_paced (ThiefEnemy_init x0 y0 g sz col now))
  /\
  (forall f : Frame ThiefEnemy,
     Thief_paced (self f) ->
     Thief_paced (self (frame_of (ThiefEnemy_update f))))
  /\
  (forall (x0 y0 : R) (g : TurtleAdventureGame) (now rx ry : Z)
          (e' : ThiefEnemy),
     Thief_later (create_my_enemy x0 y0 g now rx ry) e' ->
     Thief_paced e' /\
     (Thief_home_x e', Thief_home_y e')
     = (Home_x (home g), Home_y (home g))).
Proof.
  assert (Hinit : forall x0 y0 g sz col now,
             Thief_paced (ThiefEnemy_init x0 y0 g sz col now)).
  { intros. unfold Thief_paced. cbn.
    repeat split; try reflexivity; apply Rabs_pos_eq; lra. }
  split; [exact Hinit | split; [exact ThiefEnemy_update_paced |]].
  intros x0 y0 g now rx ry e' Hlater.
  induction Hlater as [| e' g' c Hlater [IHp IHh]].
  - split; [| reflexivity]. exact (Hinit x0 y0 g 30 "green"%string now).
  - split; [exact (ThiefEnemy_update_paced (mkFrame e' g' c) IHp) |].
    destruct (ThiefEnemy_update_snapshot (mkFrame e' g' c)) as [Hx Hy].
    cbn [self] in Hx, Hy. rewrite Hx, Hy. exact IHh.
Qed.

Lemma thief_wandering_paced : Thief_paced (self thief_wandering).
Proof.
  unfold Thief_paced. cbn. repeat split; try reflexivity;
    apply Rabs_pos_eq; lra.
Qed.

Lemma ThiefEnemy_keeps_pace_witness :
  Thief_paced (self (frame_of (ThiefEnemy_update thief_wandering))).
Proof.
  exact (proj1 (proj2 ThiefEnemy_keeps_pace) thief_wandering
               thief_wandering_paced).
Defined.

(** ** The patrol of a fencing enemy *)

Lemma FencingEnemy_update_rectangle (f : Frame FencingEnemy) :
  let e := self f in
  let e' := self (frame_of (FencingEnemy_update f)) in
  Fencing_speed e' = Fencing_speed e /\
  Fencing_x_left e' = Fencing_x_left e /\
  Fencing_x_right e' = Fencing_x_right e /\
  Fencing_y_up e' = Fencing_y_up e /\
  Fencing_y_down e' = Fencing_y_down e /\
  size e' = size e.
Proof.
  destruct f as [[[ex ey sz col] sp xl xr yu yd st] g c].
  unfold FencingEnemy_update, FencingEnemy_call_state, x, y, size.
  destruct st;
    unfold FencingEnemy_move_down, FencingEnemy_move_right,
      FencingEnemy_move_up, FencingEnemy_move_left;
    run_method; repeat split.
Qed.

Lemma FencingEnemy_update_patrol (f : Frame FencingEnemy) :
  Fencing_rectangle (self f) ->
  Fencing_on_patrol (self f) ->
  Fencing_on_patrol (self (frame_of (FencingEnemy_update f))).
Proof.
  destruct f as [[[ex ey sz col] sp xl xr yu yd st] g c].
  unfold Fencing_rectangle, Fencing_on_patrol, x, y.
  cbn [self super FencingEnemy_EnemyClass Fencing_super Fencing_speed
       Fencing_x_left Fencing_x_right Fencing_y_up Fencing_y_down
       Fencing_state Enemy_x Enemy_y].
  intros (Hs & Hx & Hy).
  unfold FencingEnemy_update, FencingEnemy_call_state.
  destruct st; intros Hpatrol;
    unfold FencingEnemy_move_down, FencingEnemy_move_right,
      FencingEnemy_move_up, FencingEnemy_move_left;
    run_method; reflect_tests; lra.
Qed.

Lemma Fencing_on_patrol_near (e : FencingEnemy) :
  Fencing_rectangle e ->
  Fencing_on_patrol e ->
  Fencing_x_left e - Fencing_speed e <= x e
  <= Fencing_x_right e + Fencing_speed e /\
  Fencing_y_up e - Fencing_speed e <= y e
  <= Fencing_y_down e + Fencing_speed e.
Proof.
  unfold Fencing_rectangle, Fencing_on_patrol.
  destruct (Fencing_state e); intros (Hs & Hx & Hy) Hp; lra.
Qed.

Lemma int_near (v : R) : v - 1 < IZR (int v) < v + 1.
Proof.
  unfold int. destruct (Rle_dec 0 v) as [Hv | Hv].
  - destruct (base_Int_part v). lra.
  - destruct (base_Int_part (- v)). rewrite opp_IZR. lra.
Qed.

(** What holds of a fencing enemy after any number of updates. *)
Lemma Fencing_later_invariant (e e' : FencingEnemy) :
  Fencing_rectangle e ->
  Fencing_on_patrol e ->
  Fencing_later e e' ->
  (Fencing_speed e' = Fencing_speed e /\
   Fencing_x_left e' = Fencing_x_left e /\
   Fencing_x_right e' = Fencing_x_right e /\
   Fencing_y_up e' = Fencing_y_up e /\
   Fencing_y_down e' = Fencing_y_down e) /\
  size e' = size e /\
  Fencing_on_patrol e'.
Proof.
  intros Hrect Hpatrol Hlater.
  induction Hlater as [| e' g c Hlater (Hsame & Hsize & IH)].
  - repeat split; try reflexivity. exact Hpatrol.
  - destruct (FencingEnemy_update_rectangle (mkFrame e' g c))
      as (H1 & H2 & H3 & H4 & H5 & H6).
    cbn [self] in H1, H2, H3, H4, H5, H6.
    destruct Hsame as (S1 & S2 & S3 & S4 & S5).
    split; [| split].
    + rewrite H1, H2, H3, H4, H5. repeat split; assumption.
    + rewrite H6. exact Hsize.
    + apply FencingEnemy_update_patrol; cbn [self]; [| exact IH].
      unfold Fencing_rectangle in *. rewrite S1, S2, S3, S4, S5. exact Hrect.
Qed.

(** A fencing enemy never leaves its rectangle by more than a step.  Its
    rectangle and speed are never written by an update.  If the rectangle is
    not inside out and the speed not negative, an enemy on patrol (on the
    side it is moving along, at most one step beyond its ends) is on patrol
    again after every update, so after any number of updates it is within
    one step of the rectangle on both axes. *)
Theorem FencingEnemy_stays_on_patrol (e e' : FencingEnemy) :
  Fencing_rectangle e ->
  Fencing_on_patrol e ->
  Fencing_later e e' ->
  (Fencing_speed e' = Fencing_speed e /\
   Fencing_x_left e' = Fencing_x_left e /\
   Fencing_x_right e' = Fencing_x_right e /\
   Fencing_y_up e' = Fencing_y_up e /\
   Fencing_y_down e' = Fencing_y_down e) /\
  Fencing_on_patrol e' /\
  (Fencing_x_left e - Fencing_speed e <= x e'
   <= Fencing_x_right e + Fencing_speed e) /\
  (Fencing_y_up e - Fencing_speed e <= y e'
   <= Fencing_y_down e + Fencing_speed e).
Proof.
  intros Hrect Hpatrol Hlater.
  destruct (Fencing_later_invariant e e' Hrect Hpatrol Hlater)
    as (Hsame & _ & Hp).
  split; [exact Hsame | split; [exact Hp |]].
  destruct Hsame as (S1 & S2 & S3 & S4 & S5).
  rewrite <- S1, <- S2, <- S3, <- S4, <- S5.
  apply Fencing_on_patrol_near; [| exact Hp].
  unfold Fencing_rectangle in *. rewrite S1, S2, S3, S4, S5. exact Hrect.
Qed.

Lemma fencer_above_corner_rectangle :
  Fencing_rectangle (self fencer_above_corner).
Proof. unfold Fencing_rectangle. cbn. lra. Qed.

Lemma fencer_above_corner_on_patrol :
  Fencing_on_patrol (self fencer_above_corner).
Proof. unfold Fencing_on_patrol, x, y. cbn. lra. Qed.

Lemma FencingEnemy_stays_on_patrol_witness :
  Fencing_on_patrol
    (self (frame_of (FencingEnemy_update fencer_above_corner))).
Proof.
  exact (proj1 (proj2
           (FencingEnemy_stays_on_patrol (self fencer_above_corner) _
              fencer_above_corner_rectangle fencer_above_corner_on_patrol
              (Fencing_later_update _ _ (game fencer_above_corner)
                 (clock fencer_above_corner) (Fencing_later_now _))))).
Defined.

(** What [create_fencing_enemy] builds. *)
Lemma create_fencing_enemy_spawn (x0 y0 : R) (g : TurtleAdventureGame)
    (dis : Z) :
  (20 <= dis <= 40)%Z ->
  let e := create_fencing_enemy x0 y0 g dis in
  let hx := Home_x (home g) in
  let hy := Home_y (home g) in
  (x e, y e) = (Fencing_x_left e, Fencing_y_up e) /\
  Fencing_state e = MOVE_DOWN /\
  Fencing_speed e = 2 /\
  size e = 15 /\
  Fencing_x_left e + Fencing_x_right e = 2 * hx /\
  Fencing_y_up e + Fencing_y_down e = 2 * hy /\
  19 < hx - Fencing_x_left e < 41 /\
  19 < hy - Fencing_y_up e < 41.
Proof.
  intros [Hlo Hhi]. cbn zeta.
  apply IZR_le in Hlo, Hhi.
  unfold create_fencing_enemy, FencingEnemy_init, x, y, size. cbn.
  pose proof (int_near (Home_x (home g) - IZR dis)) as Hx.
  pose proof (int_near (Home_y (home g) - IZR dis)) as Hy.
  repeat split; try reflexivity; lra.
Qed.

Lemma create_fencing_enemy_ready (x0 y0 : R) (g : TurtleAdventureGame)
    (dis : Z) :
  (20 <= dis <= 40)%Z ->
  Fencing_rectangle (create_fencing_enemy x0 y0 g dis) /\
  Fencing_on_patrol (create_fencing_enemy x0 y0 g dis).
Proof.
  intros Hdis.
  destruct (create_fencing_enemy_spawn x0 y0 g dis Hdis)
    as (Hpos & Hst & Hsp & _ & Hcx & Hcy & Hwx & Hwy).
  pose proof (f_equal fst Hpos) as Hx. pose proof (f_equal snd Hpos) as Hy.
  cbn [fst snd] in Hx, Hy.
  unfold Fencing_rectangle, Fencing_on_patrol.
  rewrite Hst, Hsp, Hx, Hy. repeat split; lra.
Qed.

(** The fencing enemies of the generator.  [create_fencing_enemy] puts the
    new enemy, in state move_down, on the upper left corner of a rectangle
    whose centre is the home's position at that moment and whose half-width
    on each axis is within 1 of the offset drawn from 20..40.  Patrolling
    that rectangle, the enemy stays within 43 units of that centre on both
    axes, and it never hits a player who is within 10 units of that centre
    on both axes, that is, inside the home if the home has not been moved. *)
Theorem create_fencing_enemy_fences_home (x0 y0 : R) (g : TurtleAdventureGame)
    (dis : Z) (e' : FencingEnemy) :
  (20 <= dis <= 40)%Z ->
  let e := create_fencing_enemy x0 y0 g dis in
  let hx := Home_x (home g) in
  let hy := Home_y (home g) in
  Fencing_later e e' ->
  ((x e, y e) = (Fencing_x_left e, Fencing_y_up e) /\
   Fencing_state e = MOVE_DOWN /\
   Fencing_x_left e + Fencing_x_right e = 2 * hx /\
   Fencing_y_up e + Fencing_y_down e = 2 * hy /\
   19 < hx - Fencing_x_left e < 41 /\
   19 < hy - Fencing_y_up e < 41) /\
  (hx - 43 < x e' < hx + 43 /\ hy - 43 < y e' < hy + 43) /\
  (forall g' : TurtleAdventureGame,
     hx - 10 <= Player_x (player g') <= hx + 10 ->
     hy - 10 <= Player_y (player g') <= hy + 10 ->
     hits_player e' g' = false).
Proof.
  intros Hdis e hx hy Hlater.
  destruct (create_fencing_enemy_spawn x0 y0 g dis Hdis)
    as (Hpos & Hst & Hsp & Hsz & Hcx & Hcy & Hwx & Hwy).
  destruct (create_fencing_enemy_ready x0 y0 g dis Hdis) as [Hrect Hpatrol].
  fold e hx hy in Hpos, Hst, Hsp, Hsz, Hcx, Hcy, Hwx, Hwy, Hrect, Hpatrol.
  destruct (Fencing_later_invariant e e' Hrect Hpatrol Hlater)
    as ((S1 & S2 & S3 & S4 & S5) & Hsize & Hp).
  split; [repeat split; try assumption; lra |].
  unfold Fencing_on_patrol in Hp. rewrite S1, S2, S3, S4, S5, Hsp in Hp.
  split.
  - destruct (Fencing_state e'); lra.
  - intros g' Hpx Hpy. apply not_true_is_false. intros Hhit.
    unfold hits_player in Hhit. rewrite Hsize, Hsz in Hhit.
    apply andb_true_iff in Hhit. destruct Hhit as [Hhx Hhy].
    apply between_lt_iff in Hhx, Hhy.
    destruct (Fencing_state e'); lra.
Qed.

Lemma create_fencing_enemy_fences_home_witness :
  hits_player (create_fencing_enemy 0 0 (start_game 300) 30)
              (set_player (start_game 300)
                 (mkPlayer 5 (mkRawTurtle (700, 250) (1, 0))))
  = false.
Proof.
  refine (proj2 (proj2
            (create_fencing_enemy_fences_home 0 0 (start_game 300) 30 _ _
               (Fencing_later_now _))) _ _ _).
  - split; discriminate.
  - cbn. lra.
  - cbn. lra.
Defined.

(** ** The random walk and the canvas *)

(** One step of the bounce on one axis. *)
Lemma axis_near_step (b extent pos v pos' v' : R) :
  0 <= extent ->
  axis_near b extent pos v ->
  pos' = pos + v ->
  (pos' < 0 \/ pos' > extent -> v' = - v) ->
  (~ (pos' < 0 \/ pos' > extent) -> v' = v) ->
  axis_near b extent pos' v'.
Proof.
  intros Hext [Hb Hpos] Hstep Hflip Hkeep. split.
  - rewrite <- Hb.
    exact (Rabs_flip_or_keep _ _ _ Hflip Hkeep (outside_dec pos' extent)).
  - destruct (outside_dec pos' extent) as [Hout | Hin].
    + rewrite (Hflip Hout). lra.
    + rewrite (Hkeep Hin). lra.
Qed.

Lemma axis_near_bounds (b extent pos v : R) :
  axis_near b extent pos v -> 0 <= extent -> - b <= pos <= extent + b.
Proof.
  intros [Hb Hpos] Hext. pose proof (Rabs_pos v) as Hv.
  assert (Habs : - Rabs v <= v <= Rabs v).
  { unfold Rabs. destruct (Rcase_abs v); lra. }
  lra.
Qed.

Lemma RandomWalkEnemy_update_near (b : R) (f : Frame RandomWalkEnemy) :
  0 <= winfo_width (canvas (game f)) ->
  0 <= winfo_height (canvas (game f)) ->
  RandomWalk_near b (winfo_width (canvas (game f)))
                  (winfo_height (canvas (game f))) (self f) ->
  RandomWalk_near b (winfo_width (canvas (game f)))
                  (winfo_height (canvas (game f)))
                  (self (frame_of (RandomWalkEnemy_update f))).
Proof.
  intros Hw Hh [Hx Hy].
  destruct (RandomWalkEnemy_update_bounce f)
    as (_ & [Hpx Hpy] & [Hxf Hxk] & [Hyf Hyk]).
  split.
  - exact (axis_near_step _ _ _ _ _ _ Hw Hx Hpx Hxf Hxk).
  - exact (axis_near_step _ _ _ _ _ _ Hh Hy Hpy Hyf Hyk).
Qed.

Lemma RandomWalk_later_near (b width height : R) (e e' : RandomWalkEnemy) :
  0 <= width ->
  0 <= height ->
  RandomWalk_near b width height e ->
  RandomWalk_later width height e e' ->
  RandomWalk_near b width height e'.
Proof.
  intros Hw Hh Hnear Hlater.
  induction Hlater as [| e' g c Hgw Hgh Hlater IH]; [exact Hnear |].
  pose proof (RandomWalkEnemy_update_near b (mkFrame e' g c)) as Hstep.
  cbn [game self] in Hstep. rewrite Hgw, Hgh in Hstep.
  exact (Hstep Hw Hh IH).
Qed.

(** A random-walk enemy never strays more than one step from the canvas.
    On a canvas that keeps its size, an enemy of pace [b] per axis that is
    on the canvas (or less than a step off it and already heading back) is
    so again after every update: after any number of updates both
    coordinates lie between [-b] and the extent of the canvas plus [b], and
    the velocity still has the absolute value [b] on both axes. *)
Theorem RandomWalkEnemy_stays_near_canvas (b width height : R)
    (e e' : RandomWalkEnemy) :
  0 <= width ->
  0 <= height ->
  RandomWalk_near b width height e ->
  RandomWalk_later width height e e' ->
  RandomWalk_near b width height e' /\
  - b <= x e' <= width + b /\
  - b <= y e' <= height + b /\
  Rabs (RandomWalk_speed_x e') = b /\
  Rabs (RandomWalk_speed_y e') = b.
Proof.
  intros Hw Hh Hnear Hlater.
  pose proof (RandomWalk_later_near b width height e e' Hw Hh Hnear Hlater)
    as Hinv.
  split; [exact Hinv |]. destruct Hinv as [Hx Hy].
  split; [exact (axis_near_bounds _ _ _ _ Hx Hw) |].
  split; [exact (axis_near_bounds _ _ _ _ Hy Hh) |].
  split; [exact (proj1 Hx) | exact (proj1 Hy)].
Qed.

(** The random-walk enemies of the generator.  [create_random_walk_enemy]
    puts the new enemy on the drawn point with the velocity (3, 3); drawn on
    the canvas, it stays within 3 units of the canvas for as long as the
    canvas keeps its size. *)
Theorem create_random_walk_enemy_stays_near (x0 y0 : R) (rx ry : Z)
    (width height : R) (e' : RandomWalkEnemy) :
  0 <= IZR rx <= width ->
  0 <= IZR ry <= height ->
  let e := create_random_walk_enemy x0 y0 rx ry in
  RandomWalk_later width height e e' ->
  (x e, y e) = (IZR rx, IZR ry) /\
  (RandomWalk_speed_x e, RandomWalk_speed_y e) = (3, 3) /\
  - 3 <= x e' <= width + 3 /\
  - 3 <= y e' <= height + 3.
Proof.
  intros Hrx Hry e Hlater.
  assert (Hnear : RandomWalk_near 3 width height e).
  { unfold RandomWalk_near, axis_near, e, create_random_walk_enemy, x, y.
    cbn. repeat split; try (apply Rabs_pos_eq; lra); left; lra. }
  assert (Hw : 0 <= width) by lra. assert (Hh : 0 <= height) by lra.
  destruct (RandomWalk_later_near 3 width height e e' Hw Hh Hnear Hlater)
    as [Hx Hy].
  pose proof (axis_near_bounds 3 width _ _ Hx Hw) as Bx.
  pose proof (axis_near_bounds 3 height _ _ Hy Hh) as By.
  split; [reflexivity | split; [reflexivity | split; assumption]].
Qed.

Lemma create_random_walk_enemy_stays_near_witness :
  - 3 <= x (self (frame_of (RandomWalkEnemy_update
                              (mkFrame (create_random_walk_enemy 0 0 799 10)
                                       (start_game 300) (fun _ => 0%Z)))))
  <= 800 + 3.
Proof.
  refine (proj1 (proj2 (proj2
            (create_random_walk_enemy_stays_near 0 0 799 10 800 500 _ _ _
               (RandomWalk_later_update 800 500 _ _ (start_game 300)
                  (fun _ => 0%Z) eq_refl eq_refl
                  (RandomWalk_later_now 800 500 _)))))); lra.
Defined.

Lemma RandomWalkEnemy_stays_near_canvas_witness :
  Rabs (RandomWalk_speed_x
          (self (frame_of (RandomWalkEnemy_update
                             (mkFrame (create_random_walk_enemy 0 0 799 10)
                                      (start_game 300) (fun _ => 0%Z))))))
  = 3.
Proof.
  refine (proj1 (proj2 (proj2 (proj2
            (RandomWalkEnemy_stays_near_canvas 3 800 500
               (create_random_walk_enemy 0 0 799 10) _ _ _ _
               (RandomWalk_later_update 800 500 _ _ (start_game 300)
                  (fun _ => 0%Z) eq_refl eq_refl
                  (RandomWalk_later_now 800 500 _))))))).
  - lra.
  - lra.
  - unfold RandomWalk_near, axis_near, create_random_walk_enemy, x, y. cbn.
    repeat split; try (apply Rabs_pos_eq; lra); left; lra.
Defined.

(** ** Boxes without extent *)

(** The two hit tests at the edge of their domain.  An enemy whose size is
    zero or negative hits nobody, wherever the player is; a home of negative
    size contains no point.  The centre of a home is inside it exactly when
    its size is not negative, and a player standing on the centre of an
    enemy is hit exactly when the enemy's size is positive. *)
Theorem boxes_without_extent :
  (forall (E : Type) (C : EnemyClass E) (e : E) (g : TurtleAdventureGame),
     size e <= 0 -> hits_player e g = false)
  /\
  (forall (h : Home) (px py : R),
     Home_size h < 0 -> Home_contains h px py = false)
  /\
  (forall h : Home,
     Home_contains h (Home_x h) (Home_y h) = true <-> 0 <= Home_size h)
  /\
  (forall (E : Type) (C : EnemyClass E) (e : E) (g : TurtleAdventureGame),
     Player_x (player g) = x e ->
     Player_y (player g) = y e ->
     (hits_player e g = true <-> 0 < size e)).
Proof.
  split; [| split; [| split]].
  - intros E C e g Hsz. apply not_true_is_false. unfold hits_player.
    rewrite andb_true_iff, !between_lt_iff. lra.
  - intros h px py Hsz. apply not_true_is_false. unfold Home_contains.
    rewrite andb_true_iff, !between_le_iff. lra.
  - intros h. unfold Home_contains.
    rewrite andb_true_iff, !between_le_iff. lra.
  - intros E C e g Hx Hy. unfold hits_player. rewrite Hx, Hy.
    rewrite andb_true_iff, !between_lt_iff. lra.
Qed.

Lemma boxes_without_extent_witness :
  hits_player (mkChasingEnemy (mkEnemy 50 250 0 "blue") 2) (start_game 300)
  = false.
Proof.
  refine (proj1 boxes_without_extent _ _
            (mkChasingEnemy (mkEnemy 50 250 0 "blue") 2) (start_game 300) _).
  unfold size. cbn. lra.
Defined.

(** ** The thief's walk to the home *)

Lemma towards_away (t : RawTurtle) (px py : R) :
  distance t px py <> 0 ->
  towards t px py
  = ((px - xcor t) / distance t px py, (py - ycor t) / distance t px py).
Proof.
  intros Hd. unfold towards.
  destruct (Req_dec_T (distance t px py) 0); [contradiction | reflexivity].
Qed.

Lemma ThiefEnemy_update_find_home_speed (f : Frame ThiefEnemy) :
  Thief_state (self f) = FIND_HOME ->
  Thief_state (self (frame_of (ThiefEnemy_update f))) = FIND_HOME ->
  Thief_speed (self (frame_of (ThiefEnemy_update f))) = Thief_speed (self f).
Proof.
  destruct f as [[[ex ey sz col] hx hy sp sx sy t0 st] g c].
  cbn [self Thief_state]. intros ->.
  unfold_thief; unfold x, y; run_method; intros; try reflexivity;
    discriminate.
Qed.

(** One update in find_home, away from the centre of the home. *)
Lemma ThiefEnemy_update_find_home_step (f : Frame ThiefEnemy) :
  let f' := frame_of (ThiefEnemy_update f) in
  Thief_state (self f) = FIND_HOME ->
  Thief_home_distance f <> 0 ->
  returned (ThiefEnemy_update f) = true /\
  Thief_home_distance f'
  = Rabs (Thief_home_distance f - Thief_speed (self f)) /\
  (Thief_state (self f') = MOVE_HOME \/
   Thief_state (self f') = FIND_HOME /\
   Thief_speed (self f') = Thief_speed (self f)) /\
  (Thief_home_distance f' <= 3 -> Thief_state (self f') = MOVE_HOME).
Proof.
  intros f' Hst Hd.
  destruct (ThiefEnemy_update_find_home f Hst Hd)
    as (Hret & Hx & Hy & Harrive & _).
  destruct (ThiefEnemy_update_frame f) as (_ & _ & _ & Hhome & Hnext & _).
  specialize (Hhome (or_intror Hst)).
  fold f' in Hx, Hy, Harrive, Hhome, Hnext.
  set (e := self f) in *. set (h := home (game f)) in *.
  set (t := mkRawTurtle (x e, y e) (1, 0)).
  assert (Hdt : distance t (Home_x h) (Home_y h) = Thief_home_distance f)
    by reflexivity.
  assert (Hdist : Thief_home_distance f'
                  = Rabs (Thief_home_distance f - Thief_speed e)).
  { rewrite <- Hdt.
    rewrite <- (towards_forward_distance t (Home_x h) (Home_y h)
                  (Thief_speed e)) by (rewrite Hdt; exact Hd).
    rewrite towards_away by (rewrite Hdt; exact Hd).
    unfold Thief_home_distance. rewrite Hhome. fold h. rewrite Hx, Hy.
    reflexivity. }
  split; [exact Hret | split; [exact Hdist | split]].
  - rewrite Hst in Hnext. destruct Hnext as [Hsame | Hmove].
    + right. split; [exact Hsame |].
      apply ThiefEnemy_update_find_home_speed; assumption.
    + left. exact Hmove.
  - intros Hnear. apply Harrive.
    unfold Thief_home_distance in Hnear. rewrite Hhome in Hnear.
    fold h in Hnear.
    pose proof (Rabs_le_norm (Home_x h - x (self f'))
                  (Home_y h - y (self f'))) as Bx.
    pose proof (Rabs_le_norm (Home_y h - y (self f'))
                  (Home_x h - x (self f'))) as By.
    replace ((Home_y h - y (self f')) ^ 2 + (Home_x h - x (self f')) ^ 2)
      with ((Home_x h - x (self f')) ^ 2 + (Home_y h - y (self f')) ^ 2)
      in By by ring.
    assert (Bx' : Rabs (Home_x h - x (self f')) <= 3) by lra.
    assert (By' : Rabs (Home_y h - y (self f')) <= 3) by lra.
    apply Rabs_le_iff in Bx', By'. lra.
Qed.

(** A thief gets to the home.  A thief in find_home with the speed 2 that is
    [d] away from the centre of the home, [0 < d <= 2 * n + 5], and is
    updated while nothing else moves the home, switches to move_home in one
    of its next [n + 1] updates; until then every update completes and
    leaves it in find_home. *)
Theorem ThiefEnemy_finds_home (n : nat) (f : Frame ThiefEnemy) :
  Thief_state (self f) = FIND_HOME ->
  Thief_speed (self f) = 2 ->
  0 < Thief_home_distance f <= 2 * INR n + 5 ->
  exists k : nat,
    (k <= n)%nat /\
    Thief_state (self (ThiefEnemy_updates (S k) f)) = MOVE_HOME /\
    (forall j : nat,
       (j <= k)%nat ->
       Thief_state (self (ThiefEnemy_updates j f)) = FIND_HOME /\
       returned (ThiefEnemy_update (ThiefEnemy_updates j f)) = true).
Proof.
  revert f. induction n as [| n IH]; intros f Hst Hsp [Hpos Hd].
  - destruct (ThiefEnemy_update_find_home_step f Hst)
      as (Hret & Hdist & _ & Harrive); [lra |].
    rewrite Hsp in Hdist. cbn in Hd.
    exists 0%nat. split; [apply le_n | split].
    + apply Harrive. rewrite Hdist. apply Rabs_le_iff. lra.
    + intros j Hj. apply Nat.le_0_r in Hj. subst j. split; assumption.
  - rewrite S_INR in Hd.
    destruct (ThiefEnemy_update_find_home_step f Hst)
      as (Hret & Hdist & Hnext & Harrive); [lra |].
    rewrite Hsp in Hdist.
    destruct Hnext as [Hmove | [Hstay Hsp']].
    + exists 0%nat. split; [apply Nat.le_0_l | split; [exact Hmove |]].
      intros j Hj. apply Nat.le_0_r in Hj. subst j. split; assumption.
    + set (f' := frame_of (ThiefEnemy_update f)) in *.
      assert (Hfar : 3 < Thief_home_distance f').
      { destruct (Rlt_dec 3 (Thief_home_distance f')) as [H3 | H3];
          [exact H3 |].
        rewrite Harrive in Hstay by lra. discriminate. }
      assert (Hd' : Thief_home_distance f' = Thief_home_distance f - 2).
      { rewrite Hdist. apply Rabs_pos_eq.
        rewrite Hdist in Hfar. unfold Rabs in Hfar.
        destruct (Rcase_abs (Thief_home_distance f - 2)); lra. }
      destruct (IH f' Hstay) as (k & Hk & Hmove & Huntil).
      * rewrite Hsp'. exact Hsp.
      * lra.
      * exists (S k). split; [apply le_n_S; exact Hk | split; [exact Hmove |]].
        intros [| j] Hj; [split; assumption |].
        apply Huntil. apply le_S_n. exact Hj.
Qed.

Lemma thief_seeking_distance : Thief_home_distance thief_seeking = 10.
Proof.
  change (sqrt ((700 - 690) ^ 2 + (250 - 250) ^ 2) = 10).
  replace (700 - 690) with 10 by lra. apply sqrt_axis; lra.
Qed.

Lemma ThiefEnemy_finds_home_witness :
  exists k : nat,
    (k <= 3)%nat /\
    Thief_state (self (ThiefEnemy_updates (S k) thief_seeking)) = MOVE_HOME /\
    (forall j : nat,
       (j <= k)%nat ->
       Thief_state (self (ThiefEnemy_updates j thief_seeking)) = FIND_HOME /\
       returned (ThiefEnemy_update (ThiefEnemy_updates j thief_seeking))
       = true).
Proof.
  refine (ThiefEnemy_finds_home 3 thief_seeking eq_refl eq_refl _).
  rewrite thief_seeking_distance. cbn. lra.
Defined.

(** ** The chasing enemies of the generator *)

(** A chasing enemy made next to the player ends the game at once.
    [create_chasing_enemy] puts the new enemy, of size 20 and speed 2, on
    the drawn point; if that point is less than 12 units from the player,
    and not the player's own position, the enemy's first update completes,
    hits the player and declares the game lost. *)
Theorem create_chasing_enemy_catches_adjacent_player (x0 y0 : R) (rx ry : Z)
    (g : TurtleAdventureGame) (c : nat -> Z) :
  let e := create_chasing_enemy x0 y0 rx ry in
  let p := player g in
  let d := sqrt ((Player_x p - IZR rx) ^ 2 + (Player_y p - IZR ry) ^ 2) in
  let r := ChasingEnemy_update (mkFrame e g c) in
  0 < d < 12 ->
  (x e, y e) = (IZR rx, IZR ry) /\
  returned r = true /\
  hits_player (self (frame_of r)) g = true /\
  game (frame_of r) = game_over_lose g.
Proof.
  intros e p d r Hd.
  assert (Hstep : d <> 0) by lra.
  destruct (ChasingEnemy_update_step (mkFrame e g c) Hstep)
    as (Hret & Hpos & _ & Hsz & Hgame).
  cbn [self game] in Hret, Hpos, Hsz, Hgame. fold p r in Hret, Hpos, Hsz, Hgame.
  set (e' := self (frame_of r)) in *.
  set (t := mkRawTurtle (x e, y e) (1, 0)) in *.
  set (h := towards t (Player_x p) (Player_y p)) in *.
  assert (Hx : x e' = xcor (forward (setheading t h) (Chasing_speed e)))
    by (unfold xcor; rewrite <- Hpos; reflexivity).
  assert (Hy : y e' = ycor (forward (setheading t h) (Chasing_speed e)))
    by (unfold ycor; rewrite <- Hpos; reflexivity).
  assert (Hafter : sqrt ((Player_x p - x e') ^ 2 + (Player_y p - y e') ^ 2)
                   = Rabs (d - 2)).
  { rewrite Hx, Hy.
    exact (towards_forward_distance t (Player_x p) (Player_y p) 2 Hstep). }
  assert (Hnear : Rabs (d - 2) < 10).
  { unfold Rabs. destruct (Rcase_abs (d - 2)); lra. }
  assert (Hhit : hits_player e' g = true).
  { unfold hits_player. fold p. rewrite Hsz.
    change (size e) with 20.
    pose proof (Rabs_le_norm (Player_x p - x e') (Player_y p - y e')) as Bx.
    pose proof (Rabs_le_norm (Player_y p - y e') (Player_x p - x e')) as By.
    replace ((Player_y p - y e') ^ 2 + (Player_x p - x e') ^ 2)
      with ((Player_x p - x e') ^ 2 + (Player_y p - y e') ^ 2) in By by ring.
    rewrite Hafter in Bx, By.
    apply Rabs_le_iff in Bx, By.
    apply andb_true_iff. split; apply between_lt_iff; lra. }
  rewrite Hhit in Hgame.
  split; [reflexivity | split; [exact Hret |]].
  split; [exact Hhit | exact Hgame].
Qed.

Lemma create_chasing_enemy_catches_adjacent_player_witness :
  game (frame_of (ChasingEnemy_update
                    (mkFrame (create_chasing_enemy 0 0 44 250)
                             (start_game 300) (fun _ => 0%Z))))
  = game_over_lose (start_game 300).
Proof.
  refine (proj2 (proj2 (proj2
            (create_chasing_enemy_catches_adjacent_player 0 0 44 250
               (start_game 300) (fun _ => 0%Z) _)))).
  change (0 < sqrt ((50 - 44) ^ 2 + (250 - 250) ^ 2) < 12).
  replace (50 - 44) with 6 by lra.
  rewrite sqrt_axis by lra. lra.
Defined.
